(** * organizer.py: classification and placement of the files of one directory

    A shallow embedding of [src/organizer.py] (class [FileOrganizer]) and the
    proofs of its specified properties.

    - Python [str] values are [string]s; [str.lower] is modelled on the ASCII
      letters, which is where every keyword and every extension of the two
      tables lives.
    - A [pathlib.Path] is the list of its components, root first.
    - The file system is a finite map from paths to nodes: directories,
      regular files and dangling symbolic links (a link that resolves is the
      node it resolves to). The log sink is the list of records emitted, the
      external calls ([file], [mkdir], [shutil.move]) are recorded in a
      trace.
    - Python exceptions are values of type [exn] carried by the result of a
      computation; [try ... except Exception] is a combinator of the monad. *)

From stdpp Require Import base strings list gmap fin_maps pretty.
From Stdlib Require Import Ascii String.

Local Open Scope string_scope.
Local Open Scope list_scope.
Local Open Scope nat_scope.

(** ** Python strings *)

Module PyStr.

(** [str.lower] on one character (ASCII letters only). *)
Definition lower_ascii (c : ascii) : ascii :=
  let n := nat_of_ascii c in
  if (65 <=? n)%nat && (n <=? 90)%nat then ascii_of_nat (n + 32) else c.

(** [s.lower()] *)
Fixpoint lower (s : string) : string :=
  match s with
  | EmptyString => EmptyString
  | String c s' => String (lower_ascii c) (lower s')
  end.

(** [s.startswith('.')] *)
Definition startswith_dot (s : string) : bool :=
  match s with
  | String "."%char _ => true
  | _ => false
  end.

(** [needle in hay]: the substring test of Python's [in] on [str]. *)
Fixpoint contains (needle hay : string) : bool :=
  String.prefix needle hay ||
  match hay with
  | EmptyString => false
  | String _ hay' => contains needle hay'
  end.

(** [s.rfind('.')], [None] standing for [-1]. *)
Fixpoint rfind_dot (s : string) : option nat :=
  match s with
  | EmptyString => None
  | String c s' =>
      match rfind_dot s' with
      | Some i => Some (S i)
      | None => if Ascii.eqb c "."%char then Some 0 else None
      end
  end.

(** [s[:i]] and [s[i:]] *)
Fixpoint take (i : nat) (s : string) : string :=
  match i, s with
  | S i', String c s' => String c (take i' s')
  | _, _ => EmptyString
  end.

Fixpoint drop (i : nat) (s : string) : string :=
  match i, s with
  | S i', String _ s' => drop i' s'
  | _, _ => s
  end.

(** [needle] occurs in [hay] as a substring. *)
Definition occurs_in (needle hay : string) : Prop :=
  ∃ before after, hay = before +:+ needle +:+ after.

End PyStr.

(** ** Configuration tables (lines 12-31)

    Python dictionaries keep insertion order, and both tables are only ever
    iterated with [.items()], so each is the ordered list of its items. *)

Definition Category := string.

Definition EXTENSION_MAP : list (Category * list string) :=
  [ ("Images", [".jpg"; ".jpeg"; ".png"; ".gif"; ".bmp"; ".tiff"; ".webp"]);
    ("Documents", [".pdf"; ".docx"; ".doc"; ".txt"; ".xlsx"; ".pptx"; ".md"]);
    ("Archives", [".zip"; ".tar"; ".gz"; ".rar"; ".7z"]);
    ("Videos", [".mp4"; ".mkv"; ".avi"; ".mov"]);
    ("Music", [".mp3"; ".wav"; ".aac"; ".flac"]);
    ("Code", [".py"; ".js"; ".html"; ".css"; ".cpp"; ".java"; ".sh"]);
    ("Executables", [".exe"; ".msi"; ".deb"; ".apk"; ".bin"; ".appimage"]);
    ("Others", []) ].

Definition FILE_TYPE_KEYWORDS : list (Category * list string) :=
  [ ("Executables", ["ELF"; "executable"; "PE32"; "Mach-O"]);
    ("Documents", ["PDF"; "Microsoft"; "Word"; "Excel"; "PowerPoint"; "Rich Text"]);
    ("Archives", ["archive"; "compressed"; "gzip"; "bzip2"]);
    ("Images", ["image"; "bitmap"; "JPEG"; "PNG"]);
    ("Videos", ["video"; "AVI"; "MP4"; "Matroska"]);
    ("Music", ["audio"; "MPEG ADTS"; "FLAC"; "WAV"; "MP3"]);
    ("Code", ["ASCII text"; "script"; "source"]) ].

(** The closed set of category names of the data model. *)
Definition CATEGORY_NAMES : list Category :=
  ["Images"; "Documents"; "Archives"; "Videos"; "Music"; "Code";
   "Executables"; "Others"].

(** ** Keyword and extension scans

    The two nested [for] loops of lines 103-106, and the loop of lines
    113-116, each returning from inside the loop at the first hit. *)

(** Inner loop, lines 104-106: [for keyword in keywords: if keyword.lower()
    in full_output: return category]. [true] when the loop returns. *)
Fixpoint scan_keywords (keywords : list string) (full_output : string) : bool :=
  match keywords with
  | [] => false
  | keyword :: rest =>
      if PyStr.contains (PyStr.lower keyword) full_output then true
      else scan_keywords rest full_output
  end.

(** Outer loop, line 103: [for category, keywords in table.items()]. Falling
    off the end of both loops is [None] (line 110). *)
Fixpoint scan_categories (table : list (Category * list string))
    (full_output : string) : option Category :=
  match table with
  | [] => None
  | (category, keywords) :: rest =>
      if scan_keywords keywords full_output then Some category
      else scan_categories rest full_output
  end.

(** Lines 112-116: [_get_category_by_extension]. [ext in extensions] is list
    membership with string equality. *)
Fixpoint scan_extensions (table : list (Category * list string))
    (ext : string) : Category :=
  match table with
  | [] => "Others"
  | (category, extensions) :: rest =>
      if bool_decide (ext ∈ extensions) then category
      else scan_extensions rest ext
  end.

Definition _get_category_by_extension (ext : string) : Category :=
  scan_extensions EXTENSION_MAP ext.

(** Some keyword of the set, lower-cased, occurs in the description. *)
Definition hits (keywords : list string) (full_output : string) : Prop :=
  ∃ keyword, keyword ∈ keywords
             ∧ PyStr.occurs_in (PyStr.lower keyword) full_output.


(** ** Paths ([pathlib]) *)

Abbreviation Path := (list string).

Module PurePath.

(** [p / n] for a single component [n] *)
Definition joinpath (p : Path) (n : string) : Path := p ++ [n].

(** [p.name] (the empty string for the root) and [p.parent] *)
Definition name (p : Path) : string := List.last p "".
Definition parent (p : Path) : Path := removelast p.

(** [p.suffix] and [p.stem] as CPython's [pathlib] computes them (3.13 and
    earlier): [i = name.rfind('.')], and the name is split at [i] when
    [0 < i < len(name) - 1]. The properties of the resolver below use only
    that a name is its stem followed by its suffix. *)
Definition split_at (n : string) : option nat :=
  match PyStr.rfind_dot n with
  | Some i => if (0 <? i)%nat && (i <? String.length n - 1)%nat then Some i else None
  | None => None
  end.

Definition suffix (p : Path) : string :=
  match split_at (name p) with
  | Some i => PyStr.drop i (name p)
  | None => ""
  end.

Definition stem (p : Path) : string :=
  match split_at (name p) with
  | Some i => PyStr.take i (name p)
  | None => name p
  end.

End PurePath.

Infix "//" := PurePath.joinpath (at level 40, left associativity).

(** ** The world: file system, exceptions, log records, external calls *)

Inductive Node : Type :=
| Dir
| File (content : string)
| BrokenLink.

Abbreviation FS := (gmap Path Node).

(** The exceptions the modelled primitives raise; all are subclasses of
    Python's [Exception], which is what both [except] clauses catch. *)
Inductive exn : Type :=
| FileNotFoundError
| FileExistsError
| NotADirectoryError
| PermissionError
| OSError
| UnicodeDecodeError
| ShutilError.

Inductive Level : Type := INFO | WARNING | ERROR.

(** The message of a record, by the line of the source that formats it. *)
Inductive Message : Type :=
| MsgBadTarget (target : Path)                      (* line 62 *)
| MsgStarting (target : Path) (dry : bool)          (* line 65 *)
| MsgFailed (entry : Path) (e : exn)                (* line 72 *)
| MsgSkipHidden (name : string)                     (* line 76 *)
| MsgDryRun (name : string) (new_path : Path)       (* line 89 *)
| MsgMoved (name : string) (new_path : Path)        (* line 92 *)
| MsgSniffFailed (name : string) (e : exn).         (* line 108 *)

(** [traceback] is set by [logger.exception], which logs at level ERROR. *)
Record LogRecord : Type := mkLog {
  level : Level;
  message : Message;
  traceback : bool
}.

(** Arguments of the two invocations of the [file] utility. *)
Inductive FileArgs : Type :=
| BriefMime (p : Path)      (* ['file', '--brief', '--mime-type', p] *)
| Plain (p : Path).         (* ['file', p] *)

Inductive Call : Type :=
| CallFile (args : FileArgs)
| CallMkdir (p : Path)
| CallMove (src dst : Path).

(** What the program cannot control: the standard output of the [file]
    process (or the exception [subprocess.run] raises), and the refusals of
    the operating system (permissions, read-only volume, ...).
    [stat_fault p] is the [OSError] that [p.exists()] and [p.is_dir()]
    re-raise (CPython 3.13 and earlier: any error other than a missing or
    unresolvable path, such as a parent that cannot be searched or a name
    that is too long); [listdir_fault p] is the error of listing [p] (a
    directory that cannot be read). Both matter where the code has no [try]
    around the call: the check of line 61 and the listing of line 67. *)
Record Env : Type := mkEnv {
  subprocess_run_file : FileArgs → exn + string;
  os_fault : Call → option exn;
  stat_fault : Path → option exn;
  listdir_fault : Path → option exn
}.

(** ** The monad of the methods: state, exceptions, log and trace *)

Inductive Res (A : Type) : Type :=
| Ret (a : A)
| Raise (e : exn)
| Diverge.
Arguments Ret {A} a.
Arguments Raise {A} e.
Arguments Diverge {A}.

Record Outcome (A : Type) : Type := mkOutcome {
  result : Res A;
  fs_after : FS;
  logged : list LogRecord;
  called : list Call
}.
Arguments mkOutcome {A}.
Arguments result {A}.
Arguments fs_after {A}.
Arguments logged {A}.
Arguments called {A}.

Definition M (A : Type) : Type := FS → Outcome A.

Definition ret {A} (a : A) : M A := λ fs, mkOutcome (Ret a) fs [] [].

Definition raise {A} (e : exn) : M A := λ fs, mkOutcome (Raise e) fs [] [].

Definition bind {A B} (m : M A) (k : A → M B) : M B := λ fs,
  let o := m fs in
  match result o with
  | Ret a =>
      let o' := k a (fs_after o) in
      mkOutcome (result o') (fs_after o') (logged o ++ logged o') (called o ++ called o')
  | Raise e => mkOutcome (Raise e) (fs_after o) (logged o) (called o)
  | Diverge => mkOutcome Diverge (fs_after o) (logged o) (called o)
  end.

(** [try: m  except Exception as e: h e] *)
Definition try_except {A} (m : M A) (h : exn → M A) : M A := λ fs,
  let o := m fs in
  match result o with
  | Raise e =>
      let o' := h e (fs_after o) in
      mkOutcome (result o') (fs_after o') (logged o ++ logged o') (called o ++ called o')
  | _ => o
  end.

Notation "'do' x <- m ; k" := (bind m (λ x, k))
  (at level 10, x name, m at level 100, k at level 200).

(** [for x in xs: body x] *)
Fixpoint for_each {A} (xs : list A) (body : A → M unit) : M unit :=
  match xs with
  | [] => ret tt
  | x :: rest => do _ <- body x; for_each rest body
  end.

(** *** Primitives *)

Definition get_fs : M FS := λ fs, mkOutcome (Ret fs) fs [] [].
Definition put_fs (fs' : FS) : M unit := λ _, mkOutcome (Ret tt) fs' [] [].
Definition emit (r : LogRecord) : M unit := λ fs, mkOutcome (Ret tt) fs [r] [].
Definition trace (c : Call) : M unit := λ fs, mkOutcome (Ret tt) fs [] [c].

Definition logger_info (m : Message) : M unit := emit (mkLog INFO m false).
Definition logger_warning (m : Message) : M unit := emit (mkLog WARNING m false).
Definition logger_error (m : Message) : M unit := emit (mkLog ERROR m false).
Definition logger_exception (m : Message) : M unit := emit (mkLog ERROR m true).

(** [p.exists()], [p.is_dir()], [p.is_file()] where the operating system
    answers: all three follow symbolic links, so a dangling link is neither
    there, nor a directory, nor a file. *)
Definition path_exists (fs : FS) (p : Path) : bool :=
  match fs !! p with Some Dir | Some (File _) => true | _ => false end.
Definition path_is_dir (fs : FS) (p : Path) : bool :=
  match fs !! p with Some Dir => true | _ => false end.
Definition path_is_file (fs : FS) (p : Path) : bool :=
  match fs !! p with Some (File _) => true | _ => false end.

(** The names [os.listdir(p)] answers with, as paths: the direct children
    of [p], listed once, in the order of the map's enumeration (the order of
    the operating system is unspecified; the loop of [organize] is also
    stated over an arbitrary list). *)
Definition iterdir (fs : FS) (p : Path) : list Path :=
  filter (λ k, k ≠ [] ∧ PurePath.parent k = p) (map_to_list fs).*1.

(** [os.rename(src, dst)] of the entry [src] and of everything below it. *)
Definition rebase (src dst k : Path) : Path :=
  if bool_decide (src `prefix_of` k) then dst ++ drop (List.length src) k else k.

Definition os_rename (fs : FS) (src dst : Path) : FS :=
  let moved := filter (λ kv, src `prefix_of` kv.1) fs in
  let kept := filter (λ kv, ¬ src `prefix_of` kv.1) fs in
  list_to_map (prod_map (rebase src dst) id <$> map_to_list moved) ∪ delete dst kept.

Section Methods.

Variable env : Env.

(** [subprocess.run(['file', ...], stdout=PIPE, text=True).stdout] *)
Definition run_file (args : FileArgs) : M string :=
  do _ <- trace (CallFile args);
  match subprocess_run_file env args with
  | inr stdout => ret stdout
  | inl e => raise e
  end.

(** [p.mkdir(exist_ok=True)]: an [OSError] of [os.mkdir] is swallowed when
    [p] is a directory already; [parents] is [False]. *)
Definition mkdir_exist_ok (p : Path) : M unit :=
  do _ <- trace (CallMkdir p);
  do fs <- get_fs;
  match fs !! p with
  | Some Dir => ret tt
  | Some (File _) | Some BrokenLink =>
      raise (default FileExistsError (os_fault env (CallMkdir p)))
  | None =>
      match os_fault env (CallMkdir p) with
      | Some e => raise e
      | None =>
          match fs !! PurePath.parent p with
          | Some Dir => put_fs (<[p := Dir]> fs)
          | Some (File _) => raise NotADirectoryError
          | Some BrokenLink | None => raise FileNotFoundError
          end
      end
  end.

(** [shutil.move(src, dst)]: into [dst] when it is a directory, a rename
    onto [dst] otherwise. The rename takes the entry [src] itself and
    replaces whatever non-directory is at the destination, a dangling link
    included. *)
Definition shutil_move (src dst : Path) : M unit :=
  do _ <- trace (CallMove src dst);
  do fs <- get_fs;
  match os_fault env (CallMove src dst) with
  | Some e => raise e
  | None =>
      let real_dst := if path_is_dir fs dst then dst // PurePath.name src else dst in
      if path_is_dir fs dst && path_exists fs real_dst then raise ShutilError
      else if bool_decide (fs !! src = None) then raise FileNotFoundError
      else
        match fs !! PurePath.parent real_dst with
        | Some Dir => put_fs (os_rename fs src real_dst)
        | Some (File _) => raise NotADirectoryError
        | Some BrokenLink | None => raise FileNotFoundError
        end
  end.

(** [p.exists()] and [p.is_dir()] with the error they re-raise. *)
Definition exists_ (p : Path) : M bool := λ fs,
  match stat_fault env p with
  | Some e => mkOutcome (Raise e) fs [] []
  | None => mkOutcome (Ret (path_exists fs p)) fs [] []
  end.

Definition is_dir (p : Path) : M bool := λ fs,
  match stat_fault env p with
  | Some e => mkOutcome (Raise e) fs [] []
  | None => mkOutcome (Ret (path_is_dir fs p)) fs [] []
  end.

(** The listing [p.iterdir()] reads when the loop asks for its first
    entry. *)
Definition iterdir_ (p : Path) : M (list Path) := λ fs,
  match listdir_fault env p with
  | Some e => mkOutcome (Raise e) fs [] []
  | None => mkOutcome (Ret (iterdir fs p)) fs [] []
  end.

End Methods.

(** ** Destination resolution (lines 118-130)

    [ex] is [Path.exists] at the time of the call. The [while True] loop is
    run on fuel: [None] when the fuel is spent with every probed name taken. *)

(** Lines 126-127: the candidate of suffix [count]. *)
Definition candidate (destination : Path) (count : nat) : Path :=
  let base := PurePath.stem destination in
  let ext := PurePath.suffix destination in
  let new_name := base +:+ "_" +:+ pretty count +:+ ext in
  PurePath.parent destination // new_name.

(** Lines 125-130. *)
Fixpoint probe (ex : Path → bool) (destination : Path) (fuel count : nat)
    : option Path :=
  match fuel with
  | O => None
  | S fuel' =>
      let new_path := candidate destination count in
      if negb (ex new_path) then Some new_path
      else probe ex destination fuel' (S count)
  end.

Definition resolve_conflict_fuel (fuel : nat) (ex : Path → bool)
    (destination : Path) : option Path :=
  if negb (ex destination) then Some destination
  else probe ex destination fuel 1.

(** ** The class [FileOrganizer] (lines 54-130) *)

Record FileOrganizer : Type := mkOrganizer {
  target_dir : Path;
  dry_run : bool
}.

(** The record of the warning of line 108. *)
Definition sniff_warning (file_path : Path) (e : exn) : LogRecord :=
  mkLog WARNING (MsgSniffFailed (PurePath.name file_path) e) false.

(** The right-hand side of line 81. *)
Definition by_extension (file_path : Path) : Category :=
  _get_category_by_extension (PyStr.lower (PurePath.suffix file_path)).

Section FileOrganizer.

Variable env : Env.
Variable self : FileOrganizer.

(** Lines 94-110. The first output is fetched and not used. *)
Definition _get_category_by_file_command (file_path : Path) : M (option Category) :=
  try_except
    (do mime_type <- run_file env (BriefMime file_path);
     do stdout <- run_file env (Plain file_path);
     let full_output := PyStr.lower stdout in
     ret (scan_categories FILE_TYPE_KEYWORDS full_output))
    (λ e,
     do _ <- logger_warning (MsgSniffFailed (PurePath.name file_path) e);
     ret None).

(** Lines 79-81: the two tiers of the classifier. [not category] holds
    of [None] and of the empty string. *)
Definition classify (file_path : Path) : M Category :=
  do category <- _get_category_by_file_command file_path;
  match category with
  | Some c => if bool_decide (c = "") then ret (by_extension file_path) else ret c
  | None => ret (by_extension file_path)
  end.

(** Lines 118-130 on the current file system. A finite file system with
    [n] entries cannot hold the [n + 1] distinct candidates, so this much
    fuel is never spent (lemma [_resolve_conflict_returns]). *)
Definition _resolve_conflict (destination : Path) : M Path := λ fs,
  match resolve_conflict_fuel (S (size fs)) (path_exists fs) destination with
  | Some new_path => mkOutcome (Ret new_path) fs [] []
  | None => mkOutcome Diverge fs [] []
  end.

(** Lines 74-92. *)
Definition _process_file (file_path : Path) : M unit :=
  if PyStr.startswith_dot (PurePath.name file_path) then
    logger_info (MsgSkipHidden (PurePath.name file_path))
  else
    do category <- classify file_path;
    let destination_folder := target_dir self // category in
    do _ <- mkdir_exist_ok env destination_folder;
    do new_path <- _resolve_conflict (destination_folder // PurePath.name file_path);
    if dry_run self then
      logger_info (MsgDryRun (PurePath.name file_path) new_path)
    else
      do _ <- shutil_move env file_path new_path;
      logger_info (MsgMoved (PurePath.name file_path) new_path).

(** Lines 68-72: one iteration of the loop, with its [try]/[except]. *)
Definition organize_entry (entry : Path) : M unit :=
  try_except
    (do fs <- get_fs;
     if path_is_file fs entry then _process_file entry else ret tt)
    (λ e, logger_exception (MsgFailed entry e)).

(** Lines 67-72 over the listing [entries]. *)
Definition organize_loop (entries : list Path) : M unit :=
  for_each entries organize_entry.

(** Lines 60-72. The check of line 61 and the listing of line 67 are
    outside the [try] of line 68: what they raise leaves [organize]. [or]
    evaluates [is_dir()] only when [exists()] answered [True]. *)
Definition organize : M unit :=
  do there <- exists_ env (target_dir self);
  do is_directory <- (if there then is_dir env (target_dir self) else ret false);
  if negb there || negb is_directory
  then logger_error (MsgBadTarget (target_dir self))
  else
    do _ <- logger_info (MsgStarting (target_dir self) (dry_run self));
    do entries <- iterdir_ env (target_dir self);
    organize_loop entries.

End FileOrganizer.

(** ** Logger setup (lines 33-49)

    [logging.getLogger("FileOrganizer")] is one object for the whole
    process. The state [setup_logger] touches is its level, its handlers,
    and the files the handlers constructed so far have opened: a
    [RotatingFileHandler] opens its file when it is constructed, whether or
    not it is added to the logger afterwards. *)

Definition DEFAULT_LOG_FILE : string := "organizer.log".

Record Handler : Type := mkHandler {
  baseFilename : string;
  maxBytes : N;
  backupCount : nat;
  formatter : string
}.

(** The numeric levels of [logging]. *)
Definition NOTSET : nat := 0.
Definition DEBUG : nat := 10.
Definition levelno (l : Level) : nat :=
  match l with
  | INFO => 20
  | WARNING => 30
  | ERROR => 40
  end.

Record Logging : Type := mkLogging {
  logger_level : nat;
  logger_handlers : list Handler;
  opened : list string
}.

(** The state of a process that has not configured logging. *)
Definition fresh_logging : Logging := mkLogging NOTSET [] [].

(** Lines 38-49. *)
Definition setup_logger (log_file : string) (st : Logging) : Logging :=
  let handler :=
    mkHandler log_file (5 * 1024 * 1024) 2
      "[%(asctime)s] [%(levelname)s]: %(message)s" in
  mkLogging DEBUG
    (match logger_handlers st with
     | [] => [handler]
     | handlers => handlers
     end)
    (opened st ++ [log_file]).

(** The files a record of level [l] is written to: the logger lets it
    through when its level is not below the logger's, and hands it to every
    handler. *)
Definition written_to (st : Logging) (l : Level) : list string :=
  if logger_level st <=? levelno l then baseFilename <$> logger_handlers st
  else [].

(** ** Example directories *)

Module Fixture.

Definition target : Path := ["t"].

(** No [file] utility on the machine: [subprocess.run] raises. *)
Definition no_sniff : Env :=
  mkEnv (λ _, inl FileNotFoundError) (λ _, None) (λ _, None) (λ _, None).

(** A [file] utility that says the same of every file. *)
Definition sniff_says (stdout : string) : Env :=
  mkEnv (λ _, inr stdout) (λ _, None) (λ _, None) (λ _, None).

(** The parent of the target cannot be searched: every status query is
    refused. *)
Definition no_search : Env :=
  mkEnv (λ _, inl FileNotFoundError) (λ _, None) (λ _, Some PermissionError)
    (λ _, None).

(** The target cannot be read: listing it is refused. *)
Definition no_read : Env :=
  mkEnv (λ _, inl FileNotFoundError) (λ _, None) (λ _, None)
    (λ _, Some PermissionError).

Definition fs0 : FS :=
  list_to_map [ ([], Dir); (["t"], Dir);
                (["t"; "a.txt"], File "A");
                (["t"; "photo.JPG"], File "P");
                (["t"; ".secret"], File "S") ].

Definition dry_mode := mkOrganizer target true.
Definition apply_mode := mkOrganizer target false.

End Fixture.


(** ** Predicates of the specification *)

(** The content sniff of a file is inconclusive: one of the two invocations
    raises, or no keyword of any category occurs in the description. *)
Definition sniff_inconclusive (env : Env) (file_path : Path) : Prop :=
  (∃ e, subprocess_run_file env (BriefMime file_path) = inl e)
  ∨ (∃ e, subprocess_run_file env (Plain file_path) = inl e)
  ∨ (∃ stdout, subprocess_run_file env (Plain file_path) = inr stdout
               ∧ ∀ c keywords, (c, keywords) ∈ FILE_TYPE_KEYWORDS →
                               ¬ hits keywords (PyStr.lower stdout)).

(** The lower-cased extension of a file is in no row of the extension table. *)
Definition extension_unknown (file_path : Path) : Prop :=
  ∀ c extensions, (c, extensions) ∈ EXTENSION_MAP →
                  PyStr.lower (PurePath.suffix file_path) ∉ extensions.

(** [c] is the first category of [table], in its order, with a keyword that
    occurs in [full_output]. *)
Definition first_hit (table : list (Category * list string))
    (full_output : string) (c : Category) : Prop :=
  ∃ before keywords after,
    table = (before ++ (c, keywords) :: after)%list
    ∧ hits keywords full_output
    ∧ ∀ c' keywords', (c', keywords') ∈ before → ¬ hits keywords' full_output.

(** The file an external call reads or moves. *)
Definition call_subject (c : Call) : option Path :=
  match c with
  | CallFile (BriefMime p) | CallFile (Plain p) => Some p
  | CallMove src _ => Some src
  | CallMkdir _ => None
  end.

(** [k] is the smallest suffix from [count] on whose candidate is free. *)
Definition first_free (ex : Path → bool) (destination : Path)
    (count k : nat) : Prop :=
  count ≤ k
  ∧ ex (candidate destination k) = false
  ∧ ∀ j, count ≤ j < k → ex (candidate destination j) = true.

(** * Properties *)

(** A decidable closed goal, settled by evaluating its decision procedure. *)
Ltac by_compute := apply (bool_decide_unpack _); by vm_compute.

(** ** Strings *)

Module PyStrFacts.

Lemma app_nil_l (t : string) : "" +:+ t = t.
Proof. reflexivity. Qed.

Lemma app_cons (c : ascii) (s t : string) :
  String c s +:+ t = String c (s +:+ t).
Proof. reflexivity. Qed.

Lemma length_app (s t : string) :
  String.length (s +:+ t) = String.length s + String.length t.
Proof.
  induction s as [|c s IH]; [done|].
  rewrite app_cons. simpl. by rewrite IH.
Qed.

Lemma app_assoc (s t u : string) : (s +:+ t) +:+ u = s +:+ (t +:+ u).
Proof.
  induction s as [|c s IH]; [done|].
  rewrite !app_cons. by rewrite IH.
Qed.

Lemma app_inv_tail (s1 s2 t : string) : s1 +:+ t = s2 +:+ t → s1 = s2.
Proof.
  revert s2. induction s1 as [|c s1 IH]; intros [|c2 s2] H;
    rewrite ?app_cons, ?app_nil_l in H.
  - done.
  - apply (f_equal String.length) in H. simpl in H.
    rewrite length_app in H. lia.
  - apply (f_equal String.length) in H. simpl in H.
    rewrite length_app in H. lia.
  - injection H as -> H. f_equal. by apply IH.
Qed.

Lemma prefix_spec (s1 s2 : string) :
  String.prefix s1 s2 = true ↔ ∃ after, s2 = s1 +:+ after.
Proof.
  revert s1. induction s2 as [|b s2 IH]; intros [|a s1]; simpl.
  - split; [by exists "" | done].
  - split; [done | by intros [? ?]].
  - split; [by eexists | done].
  - destruct (ascii_dec a b) as [->|Hne].
    + rewrite IH. split; intros [after H]; exists after;
        rewrite ?app_cons in *; congruence.
    + split; [done | intros [after H]; rewrite app_cons in H; congruence].
Qed.

Lemma contains_nil (needle : string) :
  PyStr.contains needle "" = String.prefix needle "" || false.
Proof. reflexivity. Qed.

Lemma contains_cons (needle : string) (c : ascii) (hay : string) :
  PyStr.contains needle (String c hay)
  = String.prefix needle (String c hay) || PyStr.contains needle hay.
Proof. reflexivity. Qed.

Lemma contains_spec (needle hay : string) :
  PyStr.contains needle hay = true ↔ PyStr.occurs_in needle hay.
Proof.
  unfold PyStr.occurs_in. induction hay as [|c hay IH];
    [rewrite contains_nil | rewrite contains_cons].
  - rewrite orb_false_r, prefix_spec. split.
    + intros [after H]. by exists "", after.
    + intros ([|? ?] & after & H); [by exists after | done].
  - rewrite orb_true_iff, prefix_spec, IH. split.
    + intros [[after H] | (before & after & H)].
      * by exists "", after.
      * exists (String c before), after. rewrite app_cons. by rewrite H.
    + intros ([|c' before] & after & H).
      * left. by exists after.
      * right. exists before, after. rewrite app_cons in H. congruence.
Qed.

Lemma take_drop (i : nat) (s : string) : PyStr.take i s +:+ PyStr.drop i s = s.
Proof.
  revert s. induction i as [|i IH]; intros [|c s]; simpl; try done.
  rewrite app_cons. by rewrite IH.
Qed.

End PyStrFacts.

Module PurePathFacts.

(** A name is its stem followed by its suffix. *)
Lemma stem_suffix (p : Path) :
  PurePath.stem p +:+ PurePath.suffix p = PurePath.name p.
Proof.
  unfold PurePath.stem, PurePath.suffix.
  destruct (PurePath.split_at _).
  - apply PyStrFacts.take_drop.
  - generalize (PurePath.name p). intros s.
    induction s; [done|]. rewrite PyStrFacts.app_cons. congruence.
Qed.

Lemma joinpath_inj (p q : Path) (n m : string) : p // n = q // m → p = q ∧ n = m.
Proof. unfold PurePath.joinpath. intros H. by apply app_inj_tail in H. Qed.

Lemma parent_name (p : Path) : p ≠ [] → PurePath.parent p // PurePath.name p = p.
Proof.
  intros Hp. unfold PurePath.joinpath, PurePath.parent, PurePath.name.
  symmetry. by apply app_removelast_last.
Qed.

End PurePathFacts.

(** ** The two scans *)

Section Scans.

Implicit Types (table : list (Category * list string)) (c : Category).

Lemma scan_keywords_spec keywords full_output :
  scan_keywords keywords full_output = true ↔ hits keywords full_output.
Proof.
  unfold hits. induction keywords as [|k ks IH]; simpl.
  - split; [done | intros (? & H & _); by apply elem_of_nil in H].
  - destruct (PyStr.contains _ _) eqn:Hk.
    + split; [|done]. intros _. exists k. split; [left|].
      by apply PyStrFacts.contains_spec.
    + rewrite IH. split.
      * intros (k' & ? & ?). exists k'. split; [by right | done].
      * intros (k' & [->|?]%elem_of_cons & Hocc); [|by exists k'].
        apply PyStrFacts.contains_spec in Hocc. congruence.
Qed.

Lemma scan_categories_None table full_output :
  scan_categories table full_output = None
  ↔ ∀ c keywords, (c, keywords) ∈ table → ¬ hits keywords full_output.
Proof.
  induction table as [|[c ks] table IH]; simpl.
  - split; [|done]. intros _ ? ? H. by apply elem_of_nil in H.
  - destruct (scan_keywords ks full_output) eqn:Hks.
    + split; [done|]. intros H. exfalso.
      apply (H c ks); [left | by apply scan_keywords_spec].
    + rewrite IH. split.
      * intros H c' ks' [[= -> ->]|?]%elem_of_cons; [|by apply (H c' ks')].
        rewrite <- scan_keywords_spec. congruence.
      * intros H c' ks' ?. apply (H c' ks'). by right.
Qed.

Lemma scan_categories_Some table full_output c :
  scan_categories table full_output = Some c ↔ first_hit table full_output c.
Proof.
  unfold first_hit. induction table as [|[c0 ks] table IH]; simpl.
  - split; [done|]. intros ([|??] & ? & ? & ? & _); done.
  - destruct (scan_keywords ks full_output) eqn:Hks.
    + split.
      * intros [= ->]. exists [], ks, table. split_and!; [done| |].
        -- by apply scan_keywords_spec.
        -- intros ? ? H. by apply elem_of_nil in H.
      * intros ([|[c1 ks1] before] & keywords & after & Heq & Hhit & Hno);
          simpl in Heq; simplify_eq; [done|].
        exfalso. eapply Hno; [left | by apply scan_keywords_spec].
    + rewrite IH. split.
      * intros (before & keywords & after & -> & Hhit & Hno).
        exists ((c0, ks) :: before), keywords, after. split_and!; [done..|].
        intros c' ks' [[= -> ->]|?]%elem_of_cons; [|by apply (Hno c' ks')].
        rewrite <- scan_keywords_spec. congruence.
      * intros ([|[c1 ks1] before] & keywords & after & Heq & Hhit & Hno);
          simpl in Heq; simplify_eq.
        -- apply scan_keywords_spec in Hhit. congruence.
        -- exists before, keywords, after. split_and!; [done..|].
           intros c' ks' ?. apply (Hno c' ks'). by right.
Qed.

Lemma scan_categories_elem table full_output c :
  scan_categories table full_output = Some c → c ∈ table.*1.
Proof.
  intros (before & ks & after & -> & _)%scan_categories_Some.
  rewrite fmap_app, elem_of_app. right. simpl. left.
Qed.

Lemma scan_extensions_elem table ext :
  scan_extensions table ext = "Others" ∨ scan_extensions table ext ∈ table.*1.
Proof.
  induction table as [|[c exts] table IH]; simpl; [by left|].
  case_bool_decide; [right; left|].
  destruct IH; [by left | right; by right].
Qed.

Lemma scan_extensions_miss table ext :
  (∀ c extensions, (c, extensions) ∈ table → ext ∉ extensions) →
  scan_extensions table ext = "Others".
Proof.
  induction table as [|[c exts] table IH]; simpl; [done|]. intros H.
  case_bool_decide as Hin.
  - exfalso. by apply (H c exts); [left|].
  - apply IH. intros c' exts' ?. apply (H c' exts'). by right.
Qed.

End Scans.

(** ** The classifier *)

Section Classifier.

Variable env : Env.

(** The three ways through lines 94-110. *)
Lemma file_command_run (file_path : Path) (fs : FS) :
  _get_category_by_file_command env file_path fs =
  match subprocess_run_file env (BriefMime file_path) with
  | inl e =>
      mkOutcome (Ret None) fs [sniff_warning file_path e]
                [CallFile (BriefMime file_path)]
  | inr _ =>
      match subprocess_run_file env (Plain file_path) with
      | inl e =>
          mkOutcome (Ret None) fs [sniff_warning file_path e]
                    [CallFile (BriefMime file_path); CallFile (Plain file_path)]
      | inr stdout =>
          mkOutcome (Ret (scan_categories FILE_TYPE_KEYWORDS (PyStr.lower stdout)))
                    fs [] [CallFile (BriefMime file_path); CallFile (Plain file_path)]
      end
  end.
Proof.
  unfold _get_category_by_file_command, try_except, run_file, bind. simpl.
  destruct (subprocess_run_file env (BriefMime file_path)); simpl; [done|].
  destruct (subprocess_run_file env (Plain file_path)); simpl; done.
Qed.

(** The first tier returns, changes nothing, and answers with a key of the
    keyword table or with [None]. *)
Lemma file_command_total (file_path : Path) (fs : FS) :
  ∃ r, result (_get_category_by_file_command env file_path fs) = Ret r
       ∧ fs_after (_get_category_by_file_command env file_path fs) = fs
       ∧ (∀ c, r = Some c → c ∈ FILE_TYPE_KEYWORDS.*1).
Proof.
  rewrite file_command_run.
  destruct (subprocess_run_file env (BriefMime file_path));
    [by eexists|].
  destruct (subprocess_run_file env (Plain file_path)) as [|stdout];
    [by eexists|].
  eexists. split_and!; [done..|]. intros c. apply scan_categories_elem.
Qed.

(** [classify] is the first tier followed by a pure choice. *)
Lemma classify_run (file_path : Path) (fs : FS) :
  let o := _get_category_by_file_command env file_path fs in
  ∃ r, result o = Ret r ∧
    classify env file_path fs =
    mkOutcome (Ret (match r with
                    | Some c => if bool_decide (c = "") then by_extension file_path else c
                    | None => by_extension file_path
                    end))
              fs (logged o) (called o).
Proof.
  intros o. destruct (file_command_total file_path fs) as (r & Hr & Hfs & _).
  exists r. split; [done|]. subst o. unfold classify, bind. cbv zeta beta.
  rewrite Hr, Hfs.
  destruct r as [c|]; [case_bool_decide|]; simpl;
    by rewrite !app_nil_r.
Qed.

End Classifier.

(** ** The destination resolver *)

Section Candidates.

Variable destination : Path.

Lemma candidate_name (count : nat) :
  PurePath.name (candidate destination count)
  = PurePath.stem destination +:+ "_" +:+ pretty count
    +:+ PurePath.suffix destination.
Proof.
  unfold candidate, PurePath.name, PurePath.joinpath. by rewrite last_last.
Qed.

Lemma candidate_parent (count : nat) :
  PurePath.parent (candidate destination count) = PurePath.parent destination.
Proof.
  unfold candidate, PurePath.parent at 1, PurePath.joinpath.
  by rewrite removelast_last.
Qed.

(** Two suffixes never give the same candidate. *)
Lemma candidate_inj (j k : nat) :
  candidate destination j = candidate destination k → j = k.
Proof.
  unfold candidate. intros [_ H]%PurePathFacts.joinpath_inj.
  apply (inj (String.app _)) in H. apply (inj (String.app _)) in H.
  apply PyStrFacts.app_inv_tail in H. by apply (inj pretty) in H.
Qed.

(** A candidate is never the destination itself. *)
Lemma candidate_fresh (count : nat) : candidate destination count ≠ destination.
Proof.
  intros H. apply (f_equal PurePath.name) in H.
  rewrite candidate_name, <- PurePathFacts.stem_suffix in H.
  apply (inj (String.app _)) in H.
  apply (f_equal String.length) in H.
  rewrite !PyStrFacts.length_app in H. simpl in H. lia.
Qed.

End Candidates.

Section Probe.

Variable ex : Path → bool.
Variable destination : Path.

Lemma first_free_unique (count j k : nat) :
  first_free ex destination count j → first_free ex destination count k → j = k.
Proof.
  intros (Hj & Hfj & Hbj) (Hk & Hfk & Hbk).
  destruct (Nat.lt_trichotomy j k) as [Hlt | [-> | Hlt]]; [|done|].
  - specialize (Hbk j). rewrite Hbk in Hfj; [done | lia].
  - specialize (Hbj k). rewrite Hbj in Hfk; [done | lia].
Qed.

Lemma probe_found (fuel count k : nat) :
  first_free ex destination count k → k < count + fuel →
  probe ex destination fuel count = Some (candidate destination k).
Proof.
  revert count. induction fuel as [|fuel IH]; intros count (Hle & Hfree & Hbelow) Hlt;
    [lia|]. simpl.
  destruct (ex (candidate destination count)) eqn:Hc; simpl.
  - apply IH; [|lia]. assert (count ≠ k) by congruence.
    unfold first_free. split_and!; [lia | done |]. intros j ?. apply Hbelow. lia.
  - destruct (decide (count = k)) as [->|]; [done|].
    rewrite Hbelow in Hc; [done | lia].
Qed.

Lemma probe_Some (fuel count : nat) (new_path : Path) :
  probe ex destination fuel count = Some new_path →
  ∃ k, first_free ex destination count k ∧ k < count + fuel
       ∧ new_path = candidate destination k.
Proof.
  revert count. induction fuel as [|fuel IH]; intros count; simpl; [done|].
  destruct (ex (candidate destination count)) eqn:Hc; simpl.
  - intros (k & (Hle & Hfree & Hbelow) & Hlt & ->)%IH.
    exists k. unfold first_free. split_and!; [lia | done | | lia | done].
    intros j ?. destruct (decide (j = count)) as [->|]; [done|].
    apply Hbelow. lia.
  - intros [= <-]. exists count. unfold first_free.
    split_and!; [lia | done | | lia | done].
    intros j ?. lia.
Qed.

Lemma probe_None (fuel count : nat) :
  probe ex destination fuel count = None
  ↔ ∀ j, count ≤ j < count + fuel → ex (candidate destination j) = true.
Proof.
  revert count. induction fuel as [|fuel IH]; intros count; simpl.
  - split; [|done]. intros _ j ?. lia.
  - destruct (ex (candidate destination count)) eqn:Hc; simpl.
    + rewrite IH. split; intros H j ?.
      * destruct (decide (j = count)) as [->|]; [done|]. apply H. lia.
      * apply H. lia.
    + split; [done|]. intros H. rewrite H in Hc; [done | lia].
Qed.

(** Fuel past the first free suffix does not change the answer. *)
Lemma resolve_conflict_fuel_taken (fuel k : nat) :
  ex destination = true → first_free ex destination 1 k → k ≤ fuel →
  resolve_conflict_fuel fuel ex destination = Some (candidate destination k).
Proof.
  intros Hex Hk Hle. unfold resolve_conflict_fuel. rewrite Hex. simpl.
  apply probe_found; [done | lia].
Qed.

Lemma resolve_conflict_fuel_free (fuel : nat) :
  ex destination = false →
  resolve_conflict_fuel fuel ex destination = Some destination.
Proof. intros Hex. unfold resolve_conflict_fuel. by rewrite Hex. Qed.

Lemma resolve_conflict_fuel_Some (fuel : nat) (new_path : Path) :
  resolve_conflict_fuel fuel ex destination = Some new_path →
  ex new_path = false.
Proof.
  unfold resolve_conflict_fuel. destruct (ex destination) eqn:Hex; simpl.
  - intros (k & (_ & Hfree & _) & _ & ->)%probe_Some. done.
  - by intros [= <-].
Qed.

End Probe.

(** A file system of [n] entries leaves one of the first [n + 1] candidates
    free. *)
Lemma fs_free_candidate (fs : FS) (destination : Path) :
  ∃ k, 1 ≤ k ≤ S (size fs) ∧ path_exists fs (candidate destination k) = false.
Proof.
  set (ks := seq 1 (S (size fs))).
  destruct (decide (Exists (λ k, path_exists fs (candidate destination k) = false) ks))
    as [(k & Hk & Hfree)%Exists_exists | Hall].
  - exists k. apply elem_of_seq in Hk. split; [lia | done].
  - exfalso. apply not_Exists_Forall in Hall; [|intros ?; apply _].
    rewrite Forall_forall in Hall.
    assert (list_to_set (candidate destination <$> ks) ⊆ dom fs) as Hsub.
    { intros p (k & -> & Hk)%elem_of_list_to_set%list_elem_of_fmap.
      apply elem_of_dom. specialize (Hall k Hk). simpl in Hall.
      unfold path_exists in Hall. destruct (fs !! candidate destination k); [done|].
      by destruct Hall. }
    apply subseteq_size in Hsub.
    rewrite size_list_to_set, length_fmap, size_dom in Hsub.
    + subst ks. rewrite length_seq in Hsub. lia.
    + apply NoDup_fmap_2; [|apply NoDup_seq].
      intros j k. apply candidate_inj.
Qed.

Lemma fs_first_free (fs : FS) (destination : Path) :
  ∃ k, first_free (path_exists fs) destination 1 k ∧ k ≤ S (size fs).
Proof.
  destruct (fs_free_candidate fs destination) as (k0 & [Hge Hle] & Hfree).
  destruct (probe (path_exists fs) destination (S (size fs)) 1) as [p|] eqn:Hp.
  - apply probe_Some in Hp as (k & Hk & ? & _). exists k. split; [done | lia].
  - rewrite probe_None in Hp. rewrite Hp in Hfree; [done | lia].
Qed.

(** The model of [_resolve_conflict] returns on every file system. *)
Lemma _resolve_conflict_returns (destination : Path) (fs : FS) :
  ∃ new_path,
    _resolve_conflict destination fs = mkOutcome (Ret new_path) fs [] []
    ∧ resolve_conflict_fuel (S (size fs)) (path_exists fs) destination
      = Some new_path.
Proof.
  unfold _resolve_conflict.
  destruct (path_exists fs destination) eqn:Hex.
  - destruct (fs_first_free fs destination) as (k & Hk & Hle).
    rewrite (resolve_conflict_fuel_taken _ _ _ k); eauto.
  - rewrite resolve_conflict_fuel_free; eauto.
Qed.

(** ** The primitives *)

Section Primitives.

Variable env : Env.

(** [mkdir] traces one call and logs nothing; it either succeeds, leaving
    the file system as it was or with the one new directory, or raises
    and leaves it as it was. *)
Lemma mkdir_run (p : Path) (fs : FS) :
  ∃ r fs',
    mkdir_exist_ok env p fs = mkOutcome r fs' [] [CallMkdir p]
    ∧ ((r = Ret tt ∧ (fs' = fs ∨ fs !! p = None ∧ fs' = <[p := Dir]> fs))
       ∨ (∃ e, r = Raise e) ∧ fs' = fs).
Proof.
  unfold mkdir_exist_ok, bind, trace, get_fs, put_fs, ret, raise. simpl.
  destruct (fs !! p) as [[|content|]|] eqn:Hp; simpl.
  - eexists _, _. split; [done|]. left. eauto.
  - eexists _, _. split; [done|]. right. eauto.
  - eexists _, _. split; [done|]. right. eauto.
  - destruct (os_fault env (CallMkdir p)); simpl.
    { eexists _, _. split; [done|]. right. eauto. }
    destruct (fs !! PurePath.parent p) as [[|content|]|]; simpl;
      eexists _, _; (split; [done|]); [left | right | right | right]; eauto.
Qed.

(** [shutil.move] traces one call and logs nothing; when it raises, the
    file system is as it was. *)
Lemma move_run (src dst : Path) (fs : FS) :
  ∃ r fs',
    shutil_move env src dst fs = mkOutcome r fs' [] [CallMove src dst]
    ∧ (r = Ret tt ∨ (∃ e, r = Raise e) ∧ fs' = fs).
Proof.
  unfold shutil_move, bind, trace, get_fs, put_fs, ret, raise. simpl.
  destruct (os_fault env (CallMove src dst)); simpl.
  { eexists _, _. split; [done|]. right. eauto. }
  destruct (path_is_dir fs dst && path_exists fs _); simpl.
  { eexists _, _. split; [done|]. right. eauto. }
  destruct (bool_decide (fs !! src = None)); simpl.
  { eexists _, _. split; [done|]. right. eauto. }
  destruct (fs !! PurePath.parent _) as [[|content|]|]; simpl;
    eexists _, _; (split; [done|]); [left | right | right | right]; eauto.
Qed.

(** The classifier returns a category, leaves the file system alone, logs
    sniff warnings only and calls the [file] utility only. *)
Lemma classify_effects (file_path : Path) (fs : FS) :
  ∃ category l c,
    classify env file_path fs = mkOutcome (Ret category) fs l c
    ∧ (∀ r, r ∈ l → ∃ e, r = sniff_warning file_path e)
    ∧ (∀ x, x ∈ c → call_subject x = Some file_path ∧ ∃ args, x = CallFile args).
Proof.
  destruct (classify_run env file_path fs) as (r & _ & ->).
  eexists _, _, _. split; [done|]. rewrite file_command_run.
  destruct (subprocess_run_file env (BriefMime file_path)) as [e|];
    [|destruct (subprocess_run_file env (Plain file_path)) as [e|]]; simpl;
    (split; [intros ? Hin | intros ? Hin]);
    repeat (apply elem_of_cons in Hin as [->|Hin]; [eauto|]);
    by apply elem_of_nil in Hin.
Qed.

End Primitives.

(** ** One file *)

Section ProcessFile.

Variable env : Env.

Lemma process_file_hidden (self : FileOrganizer) (file_path : Path) (fs : FS) :
  PyStr.startswith_dot (PurePath.name file_path) = true →
  _process_file env self file_path fs
  = mkOutcome (Ret tt) fs
      [mkLog INFO (MsgSkipHidden (PurePath.name file_path)) false] [].
Proof. intros H. unfold _process_file. by rewrite H. Qed.

(** The run of [_process_file] on a file that is not hidden, in both
    modes at once: the category, the folder and the resolved path are
    fixed before [dry_run] is read. *)
Lemma process_file_cases (target file_path : Path) (fs : FS) :
  PyStr.startswith_dot (PurePath.name file_path) = false →
  ∃ category l1 c1 r2 fs2,
    let folder := target // category in
    classify env file_path fs = mkOutcome (Ret category) fs l1 c1
    ∧ (∀ r, r ∈ l1 → ∃ e, r = sniff_warning file_path e)
    ∧ (∀ x, x ∈ c1 → call_subject x = Some file_path ∧ ∃ args, x = CallFile args)
    ∧ mkdir_exist_ok env folder fs = mkOutcome r2 fs2 [] [CallMkdir folder]
    ∧ ((r2 = Ret tt ∧ (fs2 = fs ∨ fs !! folder = None ∧ fs2 = <[folder := Dir]> fs))
       ∨ (∃ e, r2 = Raise e) ∧ fs2 = fs)
    ∧ match r2 with
      | Ret _ =>
          ∃ new_path r3 fs3,
            resolve_conflict_fuel (S (size fs2)) (path_exists fs2)
              (folder // PurePath.name file_path) = Some new_path
            ∧ shutil_move env file_path new_path fs2
              = mkOutcome r3 fs3 [] [CallMove file_path new_path]
            ∧ (r3 = Ret tt ∨ (∃ e, r3 = Raise e) ∧ fs3 = fs2)
            ∧ ∀ dry,
                _process_file env (mkOrganizer target dry) file_path fs =
                if dry then
                  mkOutcome (Ret tt) fs2
                    (l1 ++ [mkLog INFO (MsgDryRun (PurePath.name file_path) new_path) false])
                    (c1 ++ [CallMkdir folder])
                else
                  mkOutcome r3 fs3
                    (l1 ++ match r3 with
                           | Ret _ => [mkLog INFO (MsgMoved (PurePath.name file_path) new_path) false]
                           | _ => []
                           end)
                    (c1 ++ [CallMkdir folder; CallMove file_path new_path])
      | Raise e =>
          ∀ dry,
            _process_file env (mkOrganizer target dry) file_path fs
            = mkOutcome (Raise e) fs2 l1 (c1 ++ [CallMkdir folder])
      | Diverge => False
      end.
Proof.
  intros Hvisible.
  destruct (classify_effects env file_path fs)
    as (category & l1 & c1 & Hc & Hl1 & Hc1).
  destruct (mkdir_run env (target // category) fs) as (r2 & fs2 & Hm & Hr2).
  exists category, l1, c1, r2, fs2. cbv zeta. split_and!; [done..|].
  destruct Hr2 as [[-> _] | [[e ->] _]].
  - destruct (_resolve_conflict_returns
                (target // category // PurePath.name file_path) fs2)
      as (new_path & Hres & Hfuel).
    destruct (move_run env file_path new_path fs2) as (r3 & fs3 & Hmv & Hr3).
    exists new_path, r3, fs3. split_and!; [done..|]. intros dry.
    unfold _process_file, bind. rewrite Hvisible. cbv zeta.
    cbn [target_dir dry_run].
    rewrite Hc. cbn [result fs_after logged called].
    rewrite Hm. cbn [result fs_after logged called].
    rewrite Hres. cbn [result fs_after logged called].
    destruct dry.
    + unfold logger_info, emit. cbn [result fs_after logged called].
      by rewrite !app_nil_r.
    + rewrite Hmv. cbn [result fs_after logged called].
      destruct Hr3 as [-> | [[e ->] _]]; simpl; by rewrite ?app_nil_r.
  - intros dry. unfold _process_file, bind. rewrite Hvisible. cbv zeta.
    cbn [target_dir dry_run].
    rewrite Hc. cbn [result fs_after logged called].
    rewrite Hm. cbn [result fs_after logged called]. by rewrite ?app_nil_r.
Qed.

(** A successful [mkdir] leaves every regular file where it was. *)
Lemma mkdir_keeps_files (folder : Path) (fs fs2 : FS) :
  fs2 = fs ∨ fs !! folder = None ∧ fs2 = <[folder := Dir]> fs →
  ∀ p content, fs2 !! p = Some (File content) ↔ fs !! p = Some (File content).
Proof.
  intros [-> | [Hnone ->]] p content; [done|].
  destruct (decide (folder = p)) as [<-|].
  - rewrite lookup_insert_eq, Hnone. split; done.
  - by rewrite lookup_insert_ne.
Qed.

(** [_process_file] returns or raises; its loop is never out of fuel. *)
Lemma process_file_terminates (self : FileOrganizer) (file_path : Path) (fs : FS) :
  result (_process_file env self file_path fs) ≠ Diverge.
Proof.
  destruct self as [target dry].
  destruct (PyStr.startswith_dot (PurePath.name file_path)) eqn:Hh.
  { by rewrite process_file_hidden. }
  destruct (process_file_cases target file_path fs Hh)
    as (category & l1 & c1 & r2 & fs2 & _ & _ & _ & _ & _ & H).
  destruct r2 as [[]|e|]; [|by rewrite H|done].
  destruct H as (new_path & r3 & fs3 & _ & _ & Hr3 & ->).
  destruct dry; [done|]. by destruct Hr3 as [-> | [[e ->] _]].
Qed.

(** When [_process_file] raises, every regular file is where it was, with
    the content it had: at most the category folder is new. *)
Lemma process_file_raise_files (self : FileOrganizer) (file_path : Path)
    (fs : FS) (e : exn) :
  result (_process_file env self file_path fs) = Raise e →
  ∀ p content,
    fs_after (_process_file env self file_path fs) !! p = Some (File content)
    ↔ fs !! p = Some (File content).
Proof.
  destruct self as [target dry].
  destruct (PyStr.startswith_dot (PurePath.name file_path)) eqn:Hh.
  { by rewrite process_file_hidden. }
  destruct (process_file_cases target file_path fs Hh)
    as (category & l1 & c1 & r2 & fs2 & _ & _ & _ & _ & Hr2 & H).
  destruct r2 as [[]|e2|]; [| |done].
  - destruct H as (new_path & r3 & fs3 & _ & _ & Hr3 & ->).
    destruct dry; [done|]. simpl. intros ->.
    destruct Hr3 as [? | [_ ->]]; [done|].
    destruct Hr2 as [[_ Hfs2] | [[? ?] _]]; [|done].
    by apply mkdir_keeps_files with (target // category).
  - rewrite H. simpl. intros _.
    destruct Hr2 as [[? _] | [_ ->]]; done.
Qed.

(** Every call [_process_file] makes on behalf of a file is about that
    file, and a hidden file gets none. *)
Lemma process_file_calls (self : FileOrganizer) (file_path : Path) (fs : FS)
    (x : Call) (p : Path) :
  x ∈ called (_process_file env self file_path fs) →
  call_subject x = Some p →
  p = file_path ∧ PyStr.startswith_dot (PurePath.name file_path) = false.
Proof.
  destruct self as [target dry].
  destruct (PyStr.startswith_dot (PurePath.name file_path)) eqn:Hh.
  { rewrite process_file_hidden by done. by intros ?%elem_of_nil. }
  destruct (process_file_cases target file_path fs Hh)
    as (category & l1 & c1 & r2 & fs2 & _ & _ & Hcalls & _ & _ & H).
  assert (∀ rest, x ∈ c1 ++ rest → call_subject x = Some p →
                  (∀ y, y ∈ rest → call_subject y = Some p → p = file_path) →
                  p = file_path ∧ false = false) as Hgen.
  { intros rest [Hin | Hin]%elem_of_app Hsub Hrest.
    - destruct (Hcalls x Hin) as [Hx _]. split; congruence.
    - split; [by eapply Hrest | done]. }
  destruct r2 as [[]|e|]; [| |done].
  - destruct H as (new_path & r3 & fs3 & _ & _ & _ & ->).
    destruct dry; simpl; intros Hin Hsub; eapply Hgen; try done.
    + intros y ->%list_elem_of_singleton. done.
    + intros y [->| ->%list_elem_of_singleton]%elem_of_cons; simpl; congruence.
  - rewrite H. simpl. intros Hin Hsub. eapply Hgen; try done.
    intros y ->%list_elem_of_singleton. done.
Qed.

(** In dry-run mode no file is moved: no call of [shutil.move], and every
    regular file is where it was. *)
Lemma dry_run_keeps_files (target file_path : Path) (fs : FS) :
  let o := _process_file env (mkOrganizer target true) file_path fs in
  (∀ src dst, CallMove src dst ∉ called o)
  ∧ ∀ p content,
      fs_after o !! p = Some (File content) ↔ fs !! p = Some (File content).
Proof.
  cbv zeta. destruct (PyStr.startswith_dot (PurePath.name file_path)) eqn:Hh.
  { rewrite process_file_hidden by done. simpl. split; [|done].
    intros ? ? ?%elem_of_nil. done. }
  destruct (process_file_cases target file_path fs Hh)
    as (category & l1 & c1 & r2 & fs2 & _ & _ & Hcalls & _ & Hr2 & H).
  assert (∀ src dst, CallMove src dst ∉ c1 ++ [CallMkdir (target // category)])
    as Hnomove.
  { intros src dst [Hin | Hin%list_elem_of_singleton]%elem_of_app; [|done].
    by destruct (Hcalls _ Hin) as [_ [? ?]]. }
  destruct r2 as [[]|e|]; [| |done].
  - destruct H as (new_path & r3 & fs3 & _ & _ & _ & ->). simpl.
    split; [done|]. destruct Hr2 as [[_ Hfs2] | [[? ?] _]]; [|done].
    by apply mkdir_keeps_files with (target // category).
  - rewrite H. simpl. split; [done|]. by destruct Hr2 as [[? _] | [_ ->]].
Qed.

End ProcessFile.

(** ** The loop *)

Section Loop.

Variable env : Env.
Variable self : FileOrganizer.

(** One iteration always completes: whatever [_process_file] raises is
    caught and logged with its traceback. *)
Lemma organize_entry_run (entry : Path) (fs : FS) :
  organize_entry env self entry fs =
  if path_is_file fs entry then
    let o := _process_file env self entry fs in
    match result o with
    | Raise e =>
        mkOutcome (Ret tt) (fs_after o)
          (logged o ++ [mkLog ERROR (MsgFailed entry e) true]) (called o)
    | _ => o
    end
  else mkOutcome (Ret tt) fs [] [].
Proof.
  unfold organize_entry, try_except, bind, get_fs. simpl.
  destruct (path_is_file fs entry); simpl; [|done].
  destruct (_process_file env self entry fs) as [[[]|e|] fs' l c]; simpl;
    by rewrite ?app_nil_r.
Qed.

Lemma organize_entry_returns (entry : Path) (fs : FS) :
  result (organize_entry env self entry fs) = Ret tt.
Proof.
  rewrite organize_entry_run. destruct (path_is_file fs entry); [|done].
  pose proof (process_file_terminates env self entry fs) as Hterm.
  cbv zeta. destruct (result (_process_file env self entry fs)) as [[]|e|] eqn:Hr;
    done.
Qed.

Lemma organize_loop_cons (entry : Path) (entries : list Path) (fs : FS) :
  let o := organize_entry env self entry fs in
  let o' := organize_loop env self entries (fs_after o) in
  organize_loop env self (entry :: entries) fs
  = mkOutcome (result o') (fs_after o') (logged o ++ logged o')
      (called o ++ called o').
Proof.
  cbv zeta. unfold organize_loop. simpl. unfold bind at 1.
  by rewrite organize_entry_returns.
Qed.

Lemma organize_loop_returns (entries : list Path) (fs : FS) :
  result (organize_loop env self entries fs) = Ret tt.
Proof.
  revert fs. induction entries as [|entry entries IH]; intros fs; [done|].
  rewrite organize_loop_cons. simpl. apply IH.
Qed.

(** The loop over [before ++ after] is the loop over [before] followed by
    the loop over [after], from the file system [before] left. *)
Lemma organize_loop_app (before after : list Path) (fs : FS) :
  let o := organize_loop env self before fs in
  let o' := organize_loop env self after (fs_after o) in
  organize_loop env self (before ++ after) fs
  = mkOutcome (result o') (fs_after o') (logged o ++ logged o')
      (called o ++ called o').
Proof.
  cbv zeta. revert fs. induction before as [|entry before IH]; intros fs.
  - simpl. by destruct (organize_loop env self after fs).
  - rewrite <- app_comm_cons, !organize_loop_cons, IH. simpl.
    by rewrite !app_assoc.
Qed.

End Loop.

(** The ways through [organize]: the status check raises; the target is not
    a directory; the listing raises after the run was announced; the loop
    runs. *)
Lemma organize_run (env : Env) (self : FileOrganizer) (fs : FS) :
  organize env self fs =
  match stat_fault env (target_dir self) with
  | Some e => mkOutcome (Raise e) fs [] []
  | None =>
      if negb (path_exists fs (target_dir self))
         || negb (path_is_dir fs (target_dir self))
      then mkOutcome (Ret tt) fs
             [mkLog ERROR (MsgBadTarget (target_dir self)) false] []
      else
        match listdir_fault env (target_dir self) with
        | Some e =>
            mkOutcome (Raise e) fs
              [mkLog INFO (MsgStarting (target_dir self) (dry_run self)) false] []
        | None =>
            let o := organize_loop env self (iterdir fs (target_dir self)) fs in
            mkOutcome (result o) (fs_after o)
              (mkLog INFO (MsgStarting (target_dir self) (dry_run self)) false
               :: logged o)
              (called o)
        end
  end.
Proof.
  unfold organize, bind, exists_, is_dir, iterdir_, ret, logger_error,
    logger_info, emit.
  destruct (stat_fault env (target_dir self)) as [e|];
    cbn [result fs_after logged called]; [done|].
  destruct (path_exists fs (target_dir self));
    cbn [result fs_after logged called negb orb]; [|done].
  destruct (path_is_dir fs (target_dir self));
    cbn [result fs_after logged called negb orb]; [|done].
  destruct (listdir_fault env (target_dir self));
    cbn [result fs_after logged called]; done.
Qed.

(** * The specified properties *)

(** ** Classification *)

Lemma scan_categories_earlier (table : list (Category * list string))
    (full_output : string) (before : list (Category * list string))
    (c1 : Category) (k1 : list string) (rest : list (Category * list string)) :
  table = before ++ (c1, k1) :: rest →
  hits k1 full_output →
  ∃ c, scan_categories table full_output = Some c
       ∧ c ∈ (before ++ [(c1, k1)]).*1.
Proof.
  intros -> Hhit. induction before as [|[c0 k0] before IH]; simpl.
  - apply scan_keywords_spec in Hhit. rewrite Hhit. exists c1. split; [done|left].
  - destruct (scan_keywords k0 full_output).
    + exists c0. split; [done|left].
    + destruct IH as (c & -> & Hin). exists c. split; [done | by right].
Qed.

Lemma FILE_TYPE_KEYWORDS_NoDup : NoDup FILE_TYPE_KEYWORDS.*1.
Proof. by_compute. Qed.

(** C5. Content-based classification is first-match-wins in the declared
    order: when the [file] utility answers with a description, the
    description is lower-cased, the categories are tried in the order
    Executables, Documents, Archives, Images, Videos, Music, Code, and the
    result is the first category one of whose keywords, lower-cased, occurs
    in the description as a substring ([None] when there is none). A
    description that matches an earlier and a later category never yields the
    later one. *)
Theorem content_first_match_wins (env : Env) (file_path : Path) (fs : FS)
    (mime_type stdout : string) :
  subprocess_run_file env (BriefMime file_path) = inr mime_type →
  subprocess_run_file env (Plain file_path) = inr stdout →
  FILE_TYPE_KEYWORDS.*1
  = ["Executables"; "Documents"; "Archives"; "Images"; "Videos"; "Music"; "Code"]
  ∧ ∃ r,
      result (_get_category_by_file_command env file_path fs) = Ret r
      ∧ (∀ c, r = Some c ↔ first_hit FILE_TYPE_KEYWORDS (PyStr.lower stdout) c)
      ∧ (r = None ↔ ∀ c keywords, (c, keywords) ∈ FILE_TYPE_KEYWORDS →
                                  ¬ hits keywords (PyStr.lower stdout))
      ∧ (∀ before c1 k1 rest c2,
           FILE_TYPE_KEYWORDS = before ++ (c1, k1) :: rest →
           c2 ∈ rest.*1 →
           hits k1 (PyStr.lower stdout) →
           r ≠ Some c2).
Proof.
  intros Hmime Hfull. split; [done|].
  exists (scan_categories FILE_TYPE_KEYWORDS (PyStr.lower stdout)).
  rewrite file_command_run, Hmime, Hfull. split_and!; [done | | |].
  - intros c. apply scan_categories_Some.
  - apply scan_categories_None.
  - intros before c1 k1 rest c2 Htable Hc2 Hhit.
    destruct (scan_categories_earlier _ _ _ _ _ _ Htable Hhit) as (c & -> & Hc).
    intros [= ->]. pose proof FILE_TYPE_KEYWORDS_NoDup as Hnd.
    rewrite Htable, (assoc_L (++) before [(c1, k1)] rest : before ++ (c1, k1) :: rest = _) in Hnd.
    rewrite fmap_app in Hnd. apply NoDup_app in Hnd as (_ & Hdisj & _).
    by apply (Hdisj c2).
Qed.

Lemma content_first_match_wins_witness :
  let env := Fixture.sniff_says "x.png: gzip compressed data, was image.png" in
  subprocess_run_file env (BriefMime ["t"; "x.png"]) = inr "x.png: gzip compressed data, was image.png"
  ∧ subprocess_run_file env (Plain ["t"; "x.png"]) = inr "x.png: gzip compressed data, was image.png"
  ∧ FILE_TYPE_KEYWORDS.*1
    = ["Executables"; "Documents"; "Archives"; "Images"; "Videos"; "Music"; "Code"]
  ∧ result (_get_category_by_file_command env ["t"; "x.png"] Fixture.fs0)
    = Ret (Some "Archives").
Proof.
  cbv zeta. split; [reflexivity|]. split; [reflexivity|].
  destruct (content_first_match_wins
              (Fixture.sniff_says "x.png: gzip compressed data, was image.png")
              ["t"; "x.png"] Fixture.fs0 _ _ eq_refl eq_refl) as [Horder _].
  split; [exact Horder | reflexivity].
Defined.

(** C10. The content tier never answers "Others": it returns one of the
    seven categories that have a keyword set, or is inconclusive; no keyword
    set is declared for "Others", and a file classified "Others" got there
    through the extension fallback after an inconclusive sniff. *)
Theorem content_tier_never_others (env : Env) (file_path : Path) (fs : FS) :
  ("Others" ∉ FILE_TYPE_KEYWORDS.*1)
  ∧ (∃ r, result (_get_category_by_file_command env file_path fs) = Ret r
          ∧ (r = None
             ∨ ∃ c, r = Some c
                    ∧ c ∈ ["Executables"; "Documents"; "Archives"; "Images";
                           "Videos"; "Music"; "Code"]))
  ∧ result (_get_category_by_file_command env file_path fs) ≠ Ret (Some "Others")
  ∧ (result (classify env file_path fs) = Ret "Others" →
     result (_get_category_by_file_command env file_path fs) = Ret None
     ∧ by_extension file_path = "Others").
Proof.
  assert ("Others" ∉ FILE_TYPE_KEYWORDS.*1) as Hnot.
  { by_compute. }
  destruct (file_command_total env file_path fs) as (r & Hr & _ & Hkey).
  split_and!; [done | | |].
  - exists r. split; [done|]. destruct r as [c|]; [right | by left].
    exists c. split; [done|]. by apply Hkey.
  - rewrite Hr. intros [= ->]. apply Hnot. by apply Hkey.
  - destruct (classify_run env file_path fs) as (r' & Hr' & ->).
    rewrite Hr in Hr'. injection Hr' as <-. simpl. rewrite Hr.
    destruct r as [c|]; [|by intros [= ->]].
    case_bool_decide as Hc.
    + subst c. exfalso. specialize (Hkey "" eq_refl). revert Hkey.
      by_compute.
    + intros [= ->]. exfalso. apply Hnot. by apply Hkey.
Qed.

Lemma content_tier_never_others_witness :
  result (classify Fixture.no_sniff ["t"; "archive.xyz"] Fixture.fs0) = Ret "Others"
  ∧ result (_get_category_by_file_command Fixture.no_sniff ["t"; "archive.xyz"] Fixture.fs0)
    = Ret None
  ∧ by_extension ["t"; "archive.xyz"] = "Others".
Proof.
  split; [reflexivity|].
  destruct (content_tier_never_others Fixture.no_sniff ["t"; "archive.xyz"] Fixture.fs0)
    as (_ & _ & _ & H).
  apply H. reflexivity.
Defined.

(** C3. [classify] is total: on every file it returns, without raising, a
    member of the closed set of eight categories; when the content sniff is
    inconclusive (an invocation raises, or no keyword occurs) and the
    lower-cased extension is in no row of the extension table, the empty
    extension included, the result is exactly "Others". *)
Theorem classify_total (env : Env) (file_path : Path) (fs : FS) :
  (∃ c, result (classify env file_path fs) = Ret c ∧ c ∈ CATEGORY_NAMES)
  ∧ fs_after (classify env file_path fs) = fs
  ∧ (sniff_inconclusive env file_path → extension_unknown file_path →
     result (classify env file_path fs) = Ret "Others")
  ∧ (sniff_inconclusive env file_path → PurePath.suffix file_path = "" →
     result (classify env file_path fs) = Ret "Others").
Proof.
  destruct (classify_run env file_path fs) as (r & Hr & Hrun).
  destruct (file_command_total env file_path fs) as (r' & Hr' & _ & Hkey).
  rewrite Hr in Hr'. injection Hr' as <-.
  assert (by_extension file_path ∈ CATEGORY_NAMES) as Hext.
  { unfold by_extension, _get_category_by_extension.
    destruct (scan_extensions_elem EXTENSION_MAP
                (PyStr.lower (PurePath.suffix file_path))) as [-> | H].
    - by_compute.
    - revert H. generalize (scan_extensions EXTENSION_MAP
                              (PyStr.lower (PurePath.suffix file_path))).
      intros c Hc. simpl in Hc.
      repeat (apply elem_of_cons in Hc as [->|Hc];
              [by_compute|]).
      by apply elem_of_nil in Hc. }
  assert (sniff_inconclusive env file_path → r = None) as Hinc.
  { intros Hi. rewrite file_command_run in Hr.
    destruct Hi as [[e He] | [[e He] | (stdout & Hs & Hno)]].
    - rewrite He in Hr. cbn [result] in Hr. congruence.
    - rewrite He in Hr. destruct (subprocess_run_file env (BriefMime file_path));
        cbn [result] in Hr; congruence.
    - rewrite Hs in Hr. destruct (subprocess_run_file env (BriefMime file_path));
        cbn [result] in Hr; [congruence|].
      transitivity (scan_categories FILE_TYPE_KEYWORDS (PyStr.lower stdout));
        [congruence|].
      by apply scan_categories_None. }
  rewrite Hrun. simpl. split_and!; [|done| |].
  - eexists. split; [done|]. destruct r as [c|]; [|done].
    case_bool_decide; [done|]. specialize (Hkey c eq_refl). simpl in Hkey.
    repeat (apply elem_of_cons in Hkey as [->|Hkey];
            [by_compute|]).
    by apply elem_of_nil in Hkey.
  - intros ->%Hinc Hunknown. f_equal. by apply scan_extensions_miss.
  - intros ->%Hinc Hempty. f_equal. unfold by_extension. by rewrite Hempty.
Qed.

Lemma classify_total_witness :
  sniff_inconclusive Fixture.no_sniff ["t"; "report"]
  ∧ PurePath.suffix ["t"; "report"] = ""
  ∧ result (classify Fixture.no_sniff ["t"; "report"] Fixture.fs0) = Ret "Others".
Proof.
  assert (sniff_inconclusive Fixture.no_sniff ["t"; "report"]) as Hi.
  { left. by exists FileNotFoundError. }
  split; [exact Hi|]. split; [reflexivity|].
  destruct (classify_total Fixture.no_sniff ["t"; "report"] Fixture.fs0)
    as (_ & _ & _ & H).
  apply H; [exact Hi | reflexivity].
Defined.

(** ** Destination resolution *)


(** The example of the specification: [a.txt] and [a_1.txt] exist, and the
    resolution of [a.txt] is [a_2.txt]. *)
Example resolve_a_txt :
  let fs : FS := list_to_map [ ([], Dir); (["t"], Dir); (["t"; "Documents"], Dir);
                               (["t"; "Documents"; "a.txt"], File "1");
                               (["t"; "Documents"; "a_1.txt"], File "2") ] in
  result (_resolve_conflict ["t"; "Documents"; "a.txt"] fs)
  = Ret ["t"; "Documents"; "a_2.txt"].
Proof. by vm_compute. Qed.

(** C9. The probing loop has no upper bound on the suffix, and it
    terminates whenever only finitely many candidates [stem_k.ext] exist:
    under that assumption some amount of fuel, and every larger one, gives
    the same path. For every [n] some state of the directory makes the loop
    run past suffix [n], and were every name taken the loop would never
    return. *)
Theorem resolve_terminates_finite (ex : Path → bool) (destination : Path)
    (taken : list nat) :
  (∀ k, ex (candidate destination k) = true → k ∈ taken) →
  (∃ fuel new_path, ∀ fuel', fuel ≤ fuel' →
     resolve_conflict_fuel fuel' ex destination = Some new_path)
  ∧ (∀ n, ∃ ex', resolve_conflict_fuel (S n) ex' destination
                 = Some (candidate destination (S n))
                 ∧ ∀ fuel, fuel ≤ n → resolve_conflict_fuel fuel ex' destination = None)
  ∧ (∃ ex', ∀ fuel, resolve_conflict_fuel fuel ex' destination = None).
Proof.
  intros Hfinite. split_and!.
  - destruct (ex destination) eqn:Hex;
      [|exists 0, destination; intros; by apply resolve_conflict_fuel_free].
    set (k0 := S (max_list taken)).
    assert (ex (candidate destination k0) = false) as Hfree.
    { destruct (ex (candidate destination k0)) eqn:Hk0; [|done].
      apply Hfinite, max_list_elem_of_le in Hk0. subst k0. lia. }
    destruct (probe ex destination k0 1) as [p|] eqn:Hp.
    + apply probe_Some in Hp as (k & Hk & Hlt & ->).
      exists k, (candidate destination k). intros fuel' ?.
      by apply resolve_conflict_fuel_taken.
    + rewrite probe_None in Hp. rewrite Hp in Hfree; [done | subst k0; lia].
  - intros n.
    exists (λ p, bool_decide (p ≠ candidate destination (S n))).
    assert (first_free (λ p, bool_decide (p ≠ candidate destination (S n)))
              destination 1 (S n)) as Hff.
    { unfold first_free. split_and!; [lia | |].
      - apply bool_decide_eq_false. by intros [].
      - intros j ?. apply bool_decide_eq_true. intros ?%candidate_inj. lia. }
    assert (bool_decide (destination ≠ candidate destination (S n)) = true) as Hd.
    { apply bool_decide_eq_true. intros Heq. symmetry in Heq.
      by apply candidate_fresh in Heq. }
    split.
    + by apply resolve_conflict_fuel_taken.
    + intros fuel ?. unfold resolve_conflict_fuel. rewrite Hd. simpl.
      apply probe_None. intros j ?. apply bool_decide_eq_true.
      intros ?%candidate_inj. lia.
  - exists (λ _, true). intros fuel. unfold resolve_conflict_fuel. simpl.
    by apply probe_None.
Qed.

Lemma resolve_terminates_finite_witness :
  let ex := λ p : Path, bool_decide (p ∈ [["d"; "a.txt"]; ["d"; "a_1.txt"]]) in
  (∀ k, ex (candidate ["d"; "a.txt"] k) = true → k ∈ [1])
  ∧ ∃ fuel new_path, ∀ fuel', fuel ≤ fuel' →
      resolve_conflict_fuel fuel' ex ["d"; "a.txt"] = Some new_path.
Proof.
  cbv zeta.
  assert (∀ k, bool_decide (candidate ["d"; "a.txt"] k
                            ∈ [["d"; "a.txt"]; ["d"; "a_1.txt"]]) = true → k ∈ [1])
    as Hfinite.
  { intros k [Hk | [Hk | Hk%elem_of_nil]%elem_of_cons]%bool_decide_eq_true%elem_of_cons;
      [by apply candidate_fresh in Hk | | done].
    change ["d"; "a_1.txt"] with (candidate ["d"; "a.txt"] 1) in Hk.
    apply candidate_inj in Hk as ->. left. }
  split; [exact Hfinite|].
  exact (proj1 (resolve_terminates_finite _ ["d"; "a.txt"] [1] Hfinite)).
Defined.

(** ** Placement *)

Section Placement.

Variable env : Env.

Lemma organize_loop_calls (self : FileOrganizer) (entries : list Path) (fs : FS)
    (x : Call) (p : Path) :
  x ∈ called (organize_loop env self entries fs) →
  call_subject x = Some p →
  PyStr.startswith_dot (PurePath.name p) = false.
Proof.
  revert fs. induction entries as [|entry entries IH]; intros fs.
  - by intros ?%elem_of_nil.
  - rewrite organize_loop_cons. simpl. intros [Hin | Hin]%elem_of_app Hsub;
      [|by eapply IH].
    rewrite organize_entry_run in Hin.
    destruct (path_is_file fs entry); [|by apply elem_of_nil in Hin].
    assert (x ∈ called (_process_file env self entry fs)) as Hin'.
    { cbv zeta in Hin.
      by destruct (result (_process_file env self entry fs)). }
    by destruct (process_file_calls env self entry fs x p Hin' Hsub) as [-> ?].
Qed.

End Placement.

(** C2. The mode does not affect the decision: on the same file system and
    the same answers of the [file] utility, the path the dry run reports is
    the path the apply run hands to [shutil.move], the category folder is
    the same, and whatever the apply run logs as moved the dry run announced.
    [dry_run] is read only after the path is resolved. *)
Theorem mode_does_not_affect_decision (env : Env) (target file_path : Path)
    (fs : FS) :
  let d := _process_file env (mkOrganizer target true) file_path fs in
  let a := _process_file env (mkOrganizer target false) file_path fs in
  (∀ new_path,
     mkLog INFO (MsgDryRun (PurePath.name file_path) new_path) false ∈ logged d
     ↔ CallMove file_path new_path ∈ called a)
  ∧ (∀ folder, CallMkdir folder ∈ called d ↔ CallMkdir folder ∈ called a)
  ∧ (∀ new_path,
       mkLog INFO (MsgMoved (PurePath.name file_path) new_path) false ∈ logged a →
       mkLog INFO (MsgDryRun (PurePath.name file_path) new_path) false ∈ logged d).
Proof.
  cbv zeta. destruct (PyStr.startswith_dot (PurePath.name file_path)) eqn:Hh.
  { rewrite !process_file_hidden by done. simpl. split_and!.
    - intros new_path. split; [intros [=]%list_elem_of_singleton | by intros ?%elem_of_nil].
    - done.
    - by intros new_path [=]%list_elem_of_singleton. }
  destruct (process_file_cases env target file_path fs Hh)
    as (category & l1 & c1 & r2 & fs2 & _ & Hl1 & Hc1 & _ & _ & H).
  assert (∀ m, mkLog INFO m false ∉ l1) as Hinfo.
  { intros m Hin. by destruct (Hl1 _ Hin). }
  assert (∀ src dst, CallMove src dst ∉ c1) as Hmove.
  { intros src dst Hin. by destruct (Hc1 _ Hin) as [_ [? ?]]. }
  assert (∀ folder, CallMkdir folder ∉ c1) as Hmkdir.
  { intros folder Hin. by destruct (Hc1 _ Hin) as [_ [? ?]]. }
  destruct r2 as [[]|e|]; [| |done].
  - destruct H as (new_path & r3 & fs3 & _ & _ & _ & H). rewrite !H. simpl.
    split_and!.
    + intros p. rewrite !elem_of_app, list_elem_of_singleton, !elem_of_cons.
      split.
      * intros [?%Hinfo | [= ->]]; [done|]. right. right. by left.
      * intros [?%Hmove | [[=] | [[= ->] | ?%elem_of_nil]]]; try done. by right.
    + intros folder. rewrite !elem_of_app, list_elem_of_singleton, !elem_of_cons.
      split.
      * intros [? | ->]; [by left|]. right. by left.
      * intros [? | [-> | [[=] | ?%elem_of_nil]]]; try done; [by left | by right].
    + intros p. rewrite !elem_of_app, list_elem_of_singleton.
      intros [?%Hinfo | Hin]; [done|]. right.
      destruct r3; [|by apply elem_of_nil in Hin..].
      by apply list_elem_of_singleton in Hin as [= ->].
  - rewrite !H. simpl. split_and!.
    + intros p. split; [by intros ?%Hinfo|].
      by intros [?%Hmove | [=]%list_elem_of_singleton]%elem_of_app.
    + done.
    + by intros p ?%Hinfo.
Qed.

(** C1, at a failing input. The directory holds [a.txt] and no [Documents]
    folder and the dry run is asked for: [_process_file] returns, the log
    says what would be moved, no file is moved, and the folder [Documents]
    exists afterwards. Line 84 creates it before line 88 reads [dry_run]. *)
Theorem dry_run_creates_folder :
  let o := _process_file Fixture.no_sniff Fixture.dry_mode ["t"; "a.txt"] Fixture.fs0 in
  result o = Ret tt
  ∧ logged o = [sniff_warning ["t"; "a.txt"] FileNotFoundError;
                mkLog INFO (MsgDryRun "a.txt" ["t"; "Documents"; "a.txt"]) false]
  ∧ Fixture.fs0 !! ["t"; "Documents"] = None
  ∧ fs_after o !! ["t"; "Documents"] = Some Dir
  ∧ fs_after o ≠ Fixture.fs0.
Proof.
  cbv zeta.
  assert (fs_after (_process_file Fixture.no_sniff Fixture.dry_mode ["t"; "a.txt"] Fixture.fs0)
          !! ["t"; "Documents"] = Some Dir) as Hafter by (by vm_compute).
  assert (Fixture.fs0 !! ["t"; "Documents"] = None) as Hbefore by (by vm_compute).
  split_and!; [by vm_compute | by vm_compute | done | done |].
  intros Heq. rewrite Heq in Hafter. congruence.
Qed.

(** C8. Hidden-file exclusion: a file whose name starts with a period is
    skipped with one informational record, with no external call (no content
    sniff) and the file system unchanged; and in a whole run over any
    listing no hidden file is ever handed to the [file] utility or to
    [shutil.move]. *)
Theorem hidden_file_exclusion (env : Env) (self : FileOrganizer)
    (file_path : Path) (fs : FS) :
  PyStr.startswith_dot (PurePath.name file_path) = true →
  _process_file env self file_path fs
  = mkOutcome (Ret tt) fs
      [mkLog INFO (MsgSkipHidden (PurePath.name file_path)) false] []
  ∧ (∀ entries fs0 x,
       x ∈ called (organize_loop env self entries fs0) →
       call_subject x ≠ Some file_path).
Proof.
  intros Hh. split; [by apply process_file_hidden|].
  intros entries fs0 x Hin Hsub.
  apply (organize_loop_calls env self entries fs0 x file_path) in Hin; [|done].
  congruence.
Qed.

Lemma hidden_file_exclusion_witness :
  PyStr.startswith_dot (PurePath.name ["t"; ".secret"]) = true
  ∧ _process_file Fixture.no_sniff Fixture.apply_mode ["t"; ".secret"] Fixture.fs0
    = mkOutcome (Ret tt) Fixture.fs0 [mkLog INFO (MsgSkipHidden ".secret") false] [].
Proof.
  split; [reflexivity|].
  exact (proj1 (hidden_file_exclusion Fixture.no_sniff Fixture.apply_mode
                  ["t"; ".secret"] Fixture.fs0 eq_refl)).
Defined.

(** ** The walker *)




(** C6. Per-file fault isolation: when the processing of one entry raises,
    the exception is caught at the boundary of the iteration and logged with
    its traceback; every regular file is where the entries before left it;
    and the loop goes on with the entries after, from that state, and
    returns normally. *)
Theorem per_file_fault_isolation (env : Env) (self : FileOrganizer)
    (before after : list Path) (entry : Path) (fs : FS) (e : exn) :
  let o1 := organize_loop env self before fs in
  let o2 := organize_entry env self entry (fs_after o1) in
  let o3 := organize_loop env self after (fs_after o2) in
  path_is_file (fs_after o1) entry = true →
  result (_process_file env self entry (fs_after o1)) = Raise e →
  result o2 = Ret tt
  ∧ logged o2 = logged (_process_file env self entry (fs_after o1))
                ++ [mkLog ERROR (MsgFailed entry e) true]
  ∧ (∀ p content,
       fs_after o2 !! p = Some (File content)
       ↔ fs_after o1 !! p = Some (File content))
  ∧ organize_loop env self (before ++ entry :: after) fs
    = mkOutcome (Ret tt) (fs_after o3)
        (logged o1 ++ logged o2 ++ logged o3)
        (called o1 ++ called o2 ++ called o3).
Proof.
  cbv zeta. intros Hfile Hraise.
  pose proof (process_file_raise_files env self entry _ e Hraise) as Hfiles.
  rewrite organize_loop_app, organize_loop_cons. simpl.
  rewrite organize_loop_returns.
  rewrite organize_entry_run, Hfile. cbv zeta. rewrite Hraise. simpl.
  split_and!; done.
Qed.

Lemma per_file_fault_isolation_witness :
  let fs : FS := <[ ["t"; "Others"] := File "O" ]> Fixture.fs0 in
  let before := [["t"; "a.txt"]] in
  let entry := ["t"; "Others"] in
  let after := [["t"; "photo.JPG"]] in
  let o1 := organize_loop Fixture.no_sniff Fixture.apply_mode before fs in
  let o2 := organize_entry Fixture.no_sniff Fixture.apply_mode entry (fs_after o1) in
  let o3 := organize_loop Fixture.no_sniff Fixture.apply_mode after (fs_after o2) in
  path_is_file (fs_after o1) entry = true
  ∧ result (_process_file Fixture.no_sniff Fixture.apply_mode entry (fs_after o1))
    = Raise FileExistsError
  ∧ result o2 = Ret tt
  ∧ organize_loop Fixture.no_sniff Fixture.apply_mode (before ++ entry :: after) fs
    = mkOutcome (Ret tt) (fs_after o3)
        (logged o1 ++ logged o2 ++ logged o3)
        (called o1 ++ called o2 ++ called o3).
Proof.
  cbv zeta.
  assert (path_is_file
            (fs_after (organize_loop Fixture.no_sniff Fixture.apply_mode [["t"; "a.txt"]]
                         (<[ ["t"; "Others"] := File "O" ]> Fixture.fs0)))
            ["t"; "Others"] = true) as Hfile by (by vm_compute).
  assert (result (_process_file Fixture.no_sniff Fixture.apply_mode ["t"; "Others"]
                    (fs_after (organize_loop Fixture.no_sniff Fixture.apply_mode
                                 [["t"; "a.txt"]]
                                 (<[ ["t"; "Others"] := File "O" ]> Fixture.fs0))))
          = Raise FileExistsError) as Hraise by (by vm_compute).
  destruct (per_file_fault_isolation Fixture.no_sniff Fixture.apply_mode
              [["t"; "a.txt"]] [["t"; "photo.JPG"]] ["t"; "Others"]
              (<[ ["t"; "Others"] := File "O" ]> Fixture.fs0)
              FileExistsError Hfile Hraise) as (H1 & _ & _ & H4).
  split_and!; [exact Hfile | exact Hraise | exact H1 | exact H4].
Defined.

(** ** The end-to-end examples of the specification *)

Example photo_goes_to_Images :
  let o := _process_file Fixture.no_sniff Fixture.apply_mode ["t"; "photo.JPG"] Fixture.fs0 in
  result o = Ret tt
  ∧ fs_after o !! ["t"; "Images"; "photo.JPG"] = Some (File "P")
  ∧ fs_after o !! ["t"; "photo.JPG"] = None.
Proof. by vm_compute. Qed.

Example report_goes_to_Documents :
  let fs : FS := <[ ["t"; "report"] := File "R" ]> Fixture.fs0 in
  let o := _process_file (Fixture.sniff_says "report: PDF document, version 1.4")
             Fixture.apply_mode ["t"; "report"] fs in
  result o = Ret tt
  ∧ fs_after o !! ["t"; "Documents"; "report"] = Some (File "R")
  ∧ fs_after o !! ["t"; "report"] = None.
Proof. by vm_compute. Qed.

Example unknown_goes_to_Others :
  let fs : FS := <[ ["t"; "archive.xyz"] := File "X" ]> Fixture.fs0 in
  let o := _process_file Fixture.no_sniff Fixture.apply_mode ["t"; "archive.xyz"] fs in
  result o = Ret tt
  ∧ fs_after o !! ["t"; "Others"; "archive.xyz"] = Some (File "X")
  ∧ fs_after o !! ["t"; "archive.xyz"] = None.
Proof. by vm_compute. Qed.

(** * Further properties of the code *)

(** ** The extension table *)

Lemma scan_extensions_spec (table : list (Category * list string)) (ext : string) :
  (∃ extensions, (scan_extensions table ext, extensions) ∈ table ∧ ext ∈ extensions)
  ∨ (scan_extensions table ext = "Others"
     ∧ ∀ c extensions, (c, extensions) ∈ table → ext ∉ extensions).
Proof.
  induction table as [|[c exts] table IH]; simpl.
  - right. split; [done|]. intros ? ? H. by apply elem_of_nil in H.
  - case_bool_decide as Hin.
    + left. exists exts. split; [left | done].
    + destruct IH as [(exts' & ? & ?) | [-> Hno]].
      * left. exists exts'. split; [by right | done].
      * right. split; [done|].
        intros c' exts' [[= -> ->] | ?]%elem_of_cons; [done | by apply (Hno c' exts')].
Qed.

(** The extension lookup returns the category that owns the extension: no
    extension is listed under two categories, so an extension of a row
    gives that row's category, and "Others" is returned exactly for the
    extensions of no row. *)
Theorem extension_lookup_owner (ext : string) (c : Category) :
  _get_category_by_extension ext = c
  ↔ (∃ extensions, (c, extensions) ∈ EXTENSION_MAP ∧ ext ∈ extensions)
    ∨ (c = "Others"
       ∧ ∀ c' extensions, (c', extensions) ∈ EXTENSION_MAP → ext ∉ extensions).
Proof.
  unfold _get_category_by_extension. split.
  - intros <-. destruct (scan_extensions_spec EXTENSION_MAP ext) as [H | [-> H]];
      [by left | by right].
  - intros [(extensions & Hrow & Hext) | [-> Hno]];
      [|by apply scan_extensions_miss].
    unfold EXTENSION_MAP in Hrow.
    repeat (apply elem_of_cons in Hrow as [[= -> ->] | Hrow];
            [repeat (apply elem_of_cons in Hext as [-> | Hext]; [reflexivity|]);
             by apply elem_of_nil in Hext|]).
    by apply elem_of_nil in Hrow.
Qed.

(** ** The content tier *)

Lemma lower_app (s t : string) :
  PyStr.lower (s +:+ t) = PyStr.lower s +:+ PyStr.lower t.
Proof.
  induction s as [|c s IH]; [done|].
  rewrite PyStrFacts.app_cons. simpl. by rewrite IH.
Qed.

(** Keyword matching ignores case: when the description holds, in any
    mix of cases, a keyword of some category, the content tier answers with
    a category, and that category is declared no later than the one of the
    keyword. *)
Theorem content_match_ignores_case (env : Env) (file_path : Path) (fs : FS)
    (mime_type stdout : string) (c : Category) (keywords : list string)
    (keyword w before after : string) :
  subprocess_run_file env (BriefMime file_path) = inr mime_type →
  subprocess_run_file env (Plain file_path) = inr stdout →
  (c, keywords) ∈ FILE_TYPE_KEYWORDS →
  keyword ∈ keywords →
  PyStr.lower w = PyStr.lower keyword →
  stdout = before +:+ w +:+ after →
  ∃ c' earlier later,
    result (_get_category_by_file_command env file_path fs) = Ret (Some c')
    ∧ FILE_TYPE_KEYWORDS = earlier ++ (c, keywords) :: later
    ∧ c' ∈ (earlier ++ [(c, keywords)]).*1.
Proof.
  intros Hmime Hfull Hrow Hkey Hlower ->.
  apply list_elem_of_split in Hrow as (earlier & later & Htable).
  assert (hits keywords (PyStr.lower (before +:+ w +:+ after))) as Hhit.
  { exists keyword. split; [done|].
    exists (PyStr.lower before), (PyStr.lower after).
    by rewrite !lower_app, Hlower. }
  destruct (scan_categories_earlier _ _ _ _ _ _ Htable Hhit) as (c' & Hscan & Hc').
  exists c', earlier, later. rewrite file_command_run, Hmime, Hfull.
  cbn [result]. by rewrite Hscan.
Qed.

Lemma content_match_ignores_case_witness :
  let env := Fixture.sniff_says "report: pdf DOCUMENT" in
  subprocess_run_file env (BriefMime ["t"; "report"]) = inr "report: pdf DOCUMENT"
  ∧ PyStr.lower "pdf" = PyStr.lower "PDF"
  ∧ ∃ c' earlier later,
      result (_get_category_by_file_command env ["t"; "report"] Fixture.fs0)
      = Ret (Some c')
      ∧ FILE_TYPE_KEYWORDS
        = earlier ++ ("Documents", ["PDF"; "Microsoft"; "Word"; "Excel";
                                    "PowerPoint"; "Rich Text"]) :: later
      ∧ c' ∈ (earlier ++ [("Documents", ["PDF"; "Microsoft"; "Word"; "Excel";
                                         "PowerPoint"; "Rich Text"])]).*1.
Proof.
  cbv zeta. split; [reflexivity|]. split; [reflexivity|].
  apply (content_match_ignores_case (Fixture.sniff_says "report: pdf DOCUMENT")
           ["t"; "report"] Fixture.fs0 "report: pdf DOCUMENT" "report: pdf DOCUMENT"
           "Documents" _ "PDF" "pdf" "report: " " DOCUMENT");
    [reflexivity | reflexivity | | | reflexivity | reflexivity].
  - right. left.
  - left.
Defined.

(** No key of the keyword table is the empty string. *)
Lemma keyword_key_nonempty (c : Category) : c ∈ FILE_TYPE_KEYWORDS.*1 → c ≠ "".
Proof.
  intros Hc ->. revert Hc. by_compute.
Qed.

(** The content tier has precedence: a category found by the content sniff
    is the category of the file whatever its extension, and the extension is
    consulted only when the sniff found none. *)
Theorem content_overrides_extension (env : Env) (file_path : Path) (fs : FS)
    (r : option Category) :
  result (_get_category_by_file_command env file_path fs) = Ret r →
  result (classify env file_path fs)
  = Ret (match r with Some c => c | None => by_extension file_path end).
Proof.
  intros Hr. destruct (classify_run env file_path fs) as (r' & Hr' & ->).
  rewrite Hr in Hr'. injection Hr' as <-. simpl.
  destruct r as [c|]; [|done]. rewrite bool_decide_false; [done|].
  apply keyword_key_nonempty.
  destruct (file_command_total env file_path fs) as (r' & Hr' & _ & Hkey).
  rewrite Hr in Hr'. injection Hr' as <-. by apply Hkey.
Qed.

Lemma content_overrides_extension_witness :
  let env := Fixture.sniff_says "song.mp3: PDF document, version 1.4" in
  result (_get_category_by_file_command env ["t"; "song.mp3"] Fixture.fs0)
  = Ret (Some "Documents")
  ∧ by_extension ["t"; "song.mp3"] = "Music"
  ∧ result (classify env ["t"; "song.mp3"] Fixture.fs0) = Ret "Documents".
Proof.
  cbv zeta. split; [reflexivity|]. split; [reflexivity|].
  exact (content_overrides_extension
           (Fixture.sniff_says "song.mp3: PDF document, version 1.4")
           ["t"; "song.mp3"] Fixture.fs0 (Some "Documents") eq_refl).
Defined.

(** A failing sniff is recovered inside the content tier: the tier returns
    [None] with exactly one WARNING record and the file system untouched,
    and when the first invocation of [file] raises the second one is not
    made. *)
Theorem sniff_failure_recovered (env : Env) (file_path : Path) (fs : FS)
    (e : exn) :
  subprocess_run_file env (BriefMime file_path) = inl e
  ∨ (∃ mime_type, subprocess_run_file env (BriefMime file_path) = inr mime_type)
    ∧ subprocess_run_file env (Plain file_path) = inl e →
  let o := _get_category_by_file_command env file_path fs in
  result o = Ret None
  ∧ fs_after o = fs
  ∧ logged o = [mkLog WARNING (MsgSniffFailed (PurePath.name file_path) e) false]
  ∧ (subprocess_run_file env (BriefMime file_path) = inl e →
     called o = [CallFile (BriefMime file_path)]).
Proof.
  cbv zeta. rewrite file_command_run.
  intros [Hm | [[mime_type Hm] Hf]]; rewrite Hm; [done|].
  rewrite Hf. split_and!; done.
Qed.

Lemma sniff_failure_recovered_witness :
  subprocess_run_file Fixture.no_sniff (BriefMime ["t"; "a.txt"]) = inl FileNotFoundError
  ∧ called (_get_category_by_file_command Fixture.no_sniff ["t"; "a.txt"] Fixture.fs0)
    = [CallFile (BriefMime ["t"; "a.txt"])].
Proof.
  split; [reflexivity|].
  destruct (sniff_failure_recovered Fixture.no_sniff ["t"; "a.txt"] Fixture.fs0
              FileNotFoundError (or_introl eq_refl)) as (_ & _ & _ & H).
  exact (H eq_refl).
Defined.

(** ** Renamed destinations *)

Lemma rfind_dot_app_r (s t : string) (i : nat) :
  PyStr.rfind_dot t = Some i →
  PyStr.rfind_dot (s +:+ t) = Some (String.length s + i).
Proof.
  intros Ht. induction s as [|c s IH]; [done|].
  rewrite PyStrFacts.app_cons. simpl. by rewrite IH.
Qed.

Lemma rfind_dot_drop (s : string) (i : nat) :
  PyStr.rfind_dot s = Some i →
  PyStr.rfind_dot (PyStr.drop i s) = Some 0
  ∧ String.length (PyStr.drop i s) + i = String.length s.
Proof.
  revert i. induction s as [|c s IH]; intros i; simpl; [done|].
  destruct (PyStr.rfind_dot s) as [j|] eqn:Hs.
  - intros [= <-]. simpl. destruct (IH j eq_refl) as [? ?]. split; [done | lia].
  - destruct (Ascii.eqb c ".") eqn:Hc; [|done]. intros [= <-]. simpl.
    rewrite Hs, Hc. split; [done | lia].
Qed.

Lemma take_app_length (s t : string) : PyStr.take (String.length s) (s +:+ t) = s.
Proof.
  induction s as [|c s IH]; [by destruct t|].
  rewrite PyStrFacts.app_cons. simpl. by rewrite IH.
Qed.

Lemma drop_app_length (s t : string) : PyStr.drop (String.length s) (s +:+ t) = t.
Proof.
  induction s as [|c s IH]; [by destruct t|].
  rewrite PyStrFacts.app_cons. simpl. by rewrite IH.
Qed.

(** A renamed destination keeps its extension: when the name has an
    extension, the candidate of every count has the same extension, its stem
    is the old stem followed by the underscore and the count, and the
    extension table gives it the same category. *)
Theorem candidate_keeps_extension (destination : Path) (count : nat) :
  PurePath.suffix destination ≠ "" →
  PurePath.suffix (candidate destination count) = PurePath.suffix destination
  ∧ PurePath.stem (candidate destination count)
    = PurePath.stem destination +:+ "_" +:+ pretty count
  ∧ by_extension (candidate destination count) = by_extension destination.
Proof.
  intros Hext.
  assert (PurePath.suffix (candidate destination count) = PurePath.suffix destination
          ∧ PurePath.stem (candidate destination count)
            = PurePath.stem destination +:+ "_" +:+ pretty count) as [Hs Hst].
  { unfold PurePath.suffix at 1, PurePath.stem at 1.
    rewrite candidate_name.
    set (pre := PurePath.stem destination +:+ "_" +:+ pretty count).
    set (ext := PurePath.suffix destination).
    assert (PurePath.stem destination +:+ "_" +:+ pretty count +:+ ext = pre +:+ ext)
      as ->.
    { subst pre. by rewrite !PyStrFacts.app_assoc. }
    assert (PyStr.rfind_dot ext = Some 0 ∧ 2 ≤ String.length ext) as [Hdot Hlen].
    { subst ext. unfold PurePath.suffix in *. unfold PurePath.split_at in *.
      destruct (PyStr.rfind_dot (PurePath.name destination)) as [i|] eqn:Hi; [|done].
      destruct ((0 <? i) && (i <? String.length (PurePath.name destination) - 1))
        eqn:Hb; [|done].
      apply andb_prop in Hb as [_ Hb%Nat.ltb_lt].
      destruct (rfind_dot_drop _ _ Hi) as [? ?]. split; [done | lia]. }
    assert (1 ≤ String.length pre) as Hpre.
    { subst pre. rewrite !PyStrFacts.length_app. simpl. lia. }
    unfold PurePath.split_at. rewrite (rfind_dot_app_r pre ext 0 Hdot).
    rewrite Nat.add_0_r, PyStrFacts.length_app.
    assert ((0 <? String.length pre)
            && (String.length pre <? String.length pre + String.length ext - 1) = true)
      as ->.
    { apply andb_true_intro. split; apply Nat.ltb_lt; lia. }
    by rewrite drop_app_length, take_app_length. }
  split_and!; [done..|]. unfold by_extension. by rewrite Hs.
Qed.

Lemma candidate_keeps_extension_witness :
  PurePath.suffix ["d"; "archive.tar.gz"] ≠ ""
  ∧ PurePath.suffix (candidate ["d"; "archive.tar.gz"] 3) = ".gz"
  ∧ PurePath.stem (candidate ["d"; "archive.tar.gz"] 3) = "archive.tar_3".
Proof.
  assert (PurePath.suffix ["d"; "archive.tar.gz"] ≠ "") as H by (by vm_compute).
  destruct (candidate_keeps_extension ["d"; "archive.tar.gz"] 3 H) as (Hs & Hst & _).
  split; [exact H|]. split; [exact Hs | exact Hst].
Defined.

(** ** What a run calls, and where it puts things *)

Lemma classify_result_name (env : Env) (file_path : Path) (fs : FS) (c : Category) :
  result (classify env file_path fs) = Ret c → c ∈ CATEGORY_NAMES.
Proof.
  destruct (classify_run env file_path fs) as (r & Hr & ->).
  destruct (file_command_total env file_path fs) as (r' & Hr' & _ & Hkey).
  rewrite Hr in Hr'. injection Hr' as <-. cbn [result]. intros [= <-].
  assert (by_extension file_path ∈ CATEGORY_NAMES) as Hext.
  { unfold by_extension, _get_category_by_extension.
    destruct (scan_extensions_elem EXTENSION_MAP
                (PyStr.lower (PurePath.suffix file_path))) as [-> | H];
      [by_compute|].
    revert H. generalize (scan_extensions EXTENSION_MAP
                            (PyStr.lower (PurePath.suffix file_path))).
    intros c Hc. simpl in Hc.
    repeat (apply elem_of_cons in Hc as [->|Hc]; [by_compute|]).
    by apply elem_of_nil in Hc. }
  destruct r as [c|]; [|done]. case_bool_decide; [done|].
  specialize (Hkey c eq_refl). simpl in Hkey.
  repeat (apply elem_of_cons in Hkey as [->|Hkey]; [by_compute|]).
  by apply elem_of_nil in Hkey.
Qed.

Lemma joinpath_parent (p : Path) (n : string) : PurePath.parent (p // n) = p.
Proof. unfold PurePath.parent, PurePath.joinpath. apply removelast_last. Qed.

Lemma resolve_conflict_fuel_parent (fuel : nat) (ex : Path → bool)
    (destination new_path : Path) :
  resolve_conflict_fuel fuel ex destination = Some new_path →
  PurePath.parent new_path = PurePath.parent destination.
Proof.
  unfold resolve_conflict_fuel. destruct (ex destination); simpl.
  - intros (k & _ & _ & ->)%probe_Some. apply candidate_parent.
  - by intros [= <-].
Qed.

(** The three kinds of call [_process_file] makes for a file. *)
Lemma process_file_call_shape (env : Env) (target : Path) (dry : bool)
    (file_path : Path) (fs : FS) (x : Call) :
  x ∈ called (_process_file env (mkOrganizer target dry) file_path fs) →
  (∃ args, x = CallFile args ∧ call_subject x = Some file_path)
  ∨ (∃ c, c ∈ CATEGORY_NAMES ∧ x = CallMkdir (target // c))
  ∨ (∃ c new_path, c ∈ CATEGORY_NAMES ∧ x = CallMove file_path new_path
                   ∧ PurePath.parent new_path = target // c ∧ dry = false).
Proof.
  destruct (PyStr.startswith_dot (PurePath.name file_path)) eqn:Hh.
  { rewrite process_file_hidden by done. by intros ?%elem_of_nil. }
  destruct (process_file_cases env target file_path fs Hh)
    as (category & l1 & c1 & r2 & fs2 & Hc & _ & Hcalls & _ & _ & H).
  assert (category ∈ CATEGORY_NAMES) as Hname.
  { apply (classify_result_name env file_path fs). cbv zeta in Hc. by rewrite Hc. }
  assert (x ∈ c1 → ∃ args, x = CallFile args ∧ call_subject x = Some file_path)
    as Hfile.
  { intros Hin. destruct (Hcalls x Hin) as [? [args ?]]. eauto. }
  destruct r2 as [[]|e|]; [| |done].
  - destruct H as (new_path & r3 & fs3 & Hres & _ & _ & ->).
    apply resolve_conflict_fuel_parent in Hres. rewrite joinpath_parent in Hres.
    destruct dry; simpl.
    + intros [Hin | ->%list_elem_of_singleton]%elem_of_app; [by left; apply Hfile|].
      right. left. eauto.
    + intros [Hin | [-> | ->%list_elem_of_singleton]%elem_of_cons]%elem_of_app.
      * by left; apply Hfile.
      * right. left. eauto.
      * right. right. exists category, new_path. eauto.
  - rewrite H. simpl.
    intros [Hin | ->%list_elem_of_singleton]%elem_of_app; [by left; apply Hfile|].
    right. left. eauto.
Qed.

(** Every call of the loop is a call of [_process_file] on one of the
    entries. *)
Lemma organize_loop_call_origin (env : Env) (self : FileOrganizer)
    (entries : list Path) (fs : FS) (x : Call) :
  x ∈ called (organize_loop env self entries fs) →
  ∃ entry fs', entry ∈ entries
               ∧ x ∈ called (_process_file env self entry fs').
Proof.
  revert fs. induction entries as [|entry entries IH]; intros fs.
  - by intros ?%elem_of_nil.
  - rewrite organize_loop_cons. simpl. intros [Hin | Hin]%elem_of_app.
    + rewrite organize_entry_run in Hin.
      destruct (path_is_file fs entry); [|by apply elem_of_nil in Hin].
      exists entry, fs. split; [left|]. cbv zeta in Hin.
      by destruct (result (_process_file env self entry fs)).
    + destruct (IH _ Hin) as (entry' & fs' & ? & ?).
      exists entry', fs'. split; [by right | done].
Qed.

(** Placement is confined to the category folders: in a run over any
    listing, every directory the code asks to create is the target joined
    with one of the eight category names, every move takes one of the listed
    entries to a path directly inside such a folder, and the [file] utility
    is run on listed entries only. *)
Theorem placement_confined (env : Env) (self : FileOrganizer)
    (entries : list Path) (fs : FS) (x : Call) :
  x ∈ called (organize_loop env self entries fs) →
  match x with
  | CallMkdir folder => ∃ c, c ∈ CATEGORY_NAMES ∧ folder = target_dir self // c
  | CallMove src new_path =>
      src ∈ entries
      ∧ ∃ c, c ∈ CATEGORY_NAMES ∧ PurePath.parent new_path = target_dir self // c
  | CallFile args => ∃ entry, entry ∈ entries ∧ call_subject x = Some entry
  end.
Proof.
  intros (entry & fs' & Hentry & Hin)%organize_loop_call_origin.
  destruct self as [target dry].
  apply process_file_call_shape in Hin
    as [(args & -> & Hs) | [(c & Hc & ->) | (c & new_path & Hc & -> & Hp & _)]];
    simpl; eauto.
Qed.

Lemma placement_confined_witness :
  CallMove ["t"; "photo.JPG"] ["t"; "Images"; "photo.JPG"]
  ∈ called (organize_loop Fixture.no_sniff Fixture.apply_mode
              [["t"; "photo.JPG"]] Fixture.fs0)
  ∧ ["t"; "photo.JPG"] ∈ [["t"; "photo.JPG"]]
  ∧ ∃ c, c ∈ CATEGORY_NAMES ∧ PurePath.parent ["t"; "Images"; "photo.JPG"] = ["t"] // c.
Proof.
  assert (CallMove ["t"; "photo.JPG"] ["t"; "Images"; "photo.JPG"]
          ∈ called (organize_loop Fixture.no_sniff Fixture.apply_mode
                      [["t"; "photo.JPG"]] Fixture.fs0)) as Hin.
  { vm_compute. do 2 right. left. }
  split; [exact Hin|].
  exact (placement_confined Fixture.no_sniff Fixture.apply_mode
           [["t"; "photo.JPG"]] Fixture.fs0 _ Hin).
Defined.

(** The exceptions of [organize]: the run never loops, and the only
    exceptions that leave it are the ones raised outside the [try] of line
    68, by the status check of line 61 or by the listing of line 67;
    whatever the [file] utility, [mkdir] or [shutil.move] raise for a file
    is caught. When [organize] raises it has changed nothing and called
    nothing, and otherwise, with a directory as target, its first record
    announces the run with the target and the mode. *)
Theorem organize_exceptions (env : Env) (self : FileOrganizer) (fs : FS) :
  result (organize env self fs) ≠ Diverge
  ∧ (∀ e, result (organize env self fs) = Raise e
          ↔ stat_fault env (target_dir self) = Some e
            ∨ stat_fault env (target_dir self) = None
              ∧ path_is_dir fs (target_dir self) = true
              ∧ listdir_fault env (target_dir self) = Some e)
  ∧ (∀ e, result (organize env self fs) = Raise e →
          fs_after (organize env self fs) = fs ∧ called (organize env self fs) = [])
  ∧ (result (organize env self fs) = Ret tt →
     path_is_dir fs (target_dir self) = true →
     ∃ rest, logged (organize env self fs)
             = mkLog INFO (MsgStarting (target_dir self) (dry_run self)) false :: rest).
Proof.
  rewrite organize_run.
  destruct (stat_fault env (target_dir self)) as [e0|].
  { split_and!; [done| |done|done].
    intros e. split; [intros [= ->]; by left | intros [[= ->] | [? _]]; done]. }
  assert (path_exists fs (target_dir self) = false →
          path_is_dir fs (target_dir self) = false) as Hdir.
  { unfold path_exists, path_is_dir.
    by destruct (fs !! target_dir self) as [[]|]. }
  destruct (path_exists fs (target_dir self)) eqn:Hex; cbn [negb orb].
  - destruct (path_is_dir fs (target_dir self)) eqn:Hd; cbn [negb].
    + destruct (listdir_fault env (target_dir self)) as [e1|].
      * split_and!; [done| |done|done].
        intros e. split; [intros [= ->]; by right | intros [? | (_ & _ & [= ->])]; done].
      * cbv zeta. cbn [result fs_after logged called].
        rewrite organize_loop_returns. split_and!; [done| |done|by eexists].
        intros e. split; [done | intros [? | (_ & _ & ?)]; done].
    + split_and!; [done| |done|done].
      intros e. split; [done | intros [? | (_ & ? & _)]; done].
  - rewrite (Hdir eq_refl). split_and!; [done| |done|done].
    intros e. split; [done | intros [? | (_ & ? & _)]; done].
Qed.

(** The target is a directory that cannot be read: the run is announced and
    the listing of line 67 raises out of [organize]. *)
Example unreadable_target_raises :
  organize Fixture.no_read Fixture.apply_mode Fixture.fs0
  = mkOutcome (Raise PermissionError) Fixture.fs0
      [mkLog INFO (MsgStarting ["t"] false) false] [].
Proof. by rewrite organize_run. Qed.

Lemma iterdir_spec (fs : FS) (p entry : Path) :
  entry ∈ iterdir fs p
  ↔ entry ≠ [] ∧ PurePath.parent entry = p ∧ is_Some (fs !! entry).
Proof.
  unfold iterdir. rewrite list_elem_of_filter, list_elem_of_fmap. split.
  - intros [[? ?] ([k n] & -> & Hin%elem_of_map_to_list)]. simpl in *. eauto.
  - intros (? & ? & [n Hn]). split; [done|]. exists (entry, n).
    split; [done|]. by apply elem_of_map_to_list.
Qed.

(** No recursion: in a whole run, every path handed to the [file] utility
    or to [shutil.move] as a source is a direct child of the target that
    existed when the run began; nothing deeper in the tree is sniffed or
    moved. *)
Theorem organize_direct_children_only (env : Env) (self : FileOrganizer)
    (fs : FS) (x : Call) (p : Path) :
  x ∈ called (organize env self fs) →
  call_subject x = Some p →
  PurePath.parent p = target_dir self ∧ p ≠ [] ∧ is_Some (fs !! p)
  ∧ PyStr.startswith_dot (PurePath.name p) = false.
Proof.
  rewrite organize_run.
  destruct (stat_fault env (target_dir self)); [by intros ?%elem_of_nil|].
  destruct (negb (path_exists fs (target_dir self))
            || negb (path_is_dir fs (target_dir self))).
  { by intros ?%elem_of_nil. }
  destruct (listdir_fault env (target_dir self)); [by intros ?%elem_of_nil|].
  cbv zeta. cbn [called]. intros Hin Hsub.
  pose proof (organize_loop_calls env self _ _ x p Hin Hsub) as Hvisible.
  apply organize_loop_call_origin in Hin as (entry & fs' & Hentry & Hin).
  destruct (process_file_calls env self entry fs' x p Hin Hsub) as [-> _].
  apply iterdir_spec in Hentry as (? & ? & ?). done.
Qed.

Lemma organize_direct_children_only_witness :
  CallMove ["t"; "a.txt"] ["t"; "Documents"; "a.txt"]
  ∈ called (organize Fixture.no_sniff Fixture.apply_mode Fixture.fs0)
  ∧ PurePath.parent ["t"; "a.txt"] = ["t"].
Proof.
  assert (CallMove ["t"; "a.txt"] ["t"; "Documents"; "a.txt"]
          ∈ called (organize Fixture.no_sniff Fixture.apply_mode Fixture.fs0)) as Hin.
  { vm_compute. do 2 right. left. }
  split; [exact Hin|].
  exact (proj1 (organize_direct_children_only Fixture.no_sniff Fixture.apply_mode
                  Fixture.fs0 _ ["t"; "a.txt"] Hin eq_refl)).
Defined.

(** ** Dry runs *)

(** [fs'] is [fs] with some directories added and nothing else changed. *)
Lemma only_dirs_added_trans (fs1 fs2 fs3 : FS) :
  (∀ p, fs2 !! p = fs1 !! p ∨ fs1 !! p = None ∧ fs2 !! p = Some Dir) →
  (∀ p, fs3 !! p = fs2 !! p ∨ fs2 !! p = None ∧ fs3 !! p = Some Dir) →
  ∀ p, fs3 !! p = fs1 !! p ∨ fs1 !! p = None ∧ fs3 !! p = Some Dir.
Proof.
  intros H12 H23 p. destruct (H12 p) as [H | [H1 H2]], (H23 p) as [H' | [H1' H2']].
  - left. congruence.
  - right. split; congruence.
  - right. split; congruence.
  - congruence.
Qed.

Lemma dry_run_step (env : Env) (target file_path : Path) (fs : FS) :
  let o := _process_file env (mkOrganizer target true) file_path fs in
  (∀ src dst, CallMove src dst ∉ called o)
  ∧ ∀ p, fs_after o !! p = fs !! p ∨ fs !! p = None ∧ fs_after o !! p = Some Dir.
Proof.
  cbv zeta. destruct (PyStr.startswith_dot (PurePath.name file_path)) eqn:Hh.
  { rewrite process_file_hidden by done. simpl. split; [|by left].
    intros ? ? ?%elem_of_nil. done. }
  destruct (process_file_cases env target file_path fs Hh)
    as (category & l1 & c1 & r2 & fs2 & _ & _ & Hcalls & _ & Hr2 & H).
  assert (∀ src dst, CallMove src dst ∉ c1 ++ [CallMkdir (target // category)])
    as Hnomove.
  { intros src dst [Hin | Hin%list_elem_of_singleton]%elem_of_app; [|done].
    by destruct (Hcalls _ Hin) as [_ [? ?]]. }
  assert (∀ p, fs2 !! p = fs !! p ∨ fs !! p = None ∧ fs2 !! p = Some Dir) as Hfs.
  { destruct Hr2 as [[_ [-> | [Hnone ->]]] | [_ ->]]; [by left | | by left].
    intros p. destruct (decide (target // category = p)) as [<-|].
    - right. by rewrite lookup_insert_eq.
    - left. by rewrite lookup_insert_ne. }
  destruct r2 as [[]|e|]; [| |done].
  - destruct H as (new_path & r3 & fs3 & _ & _ & _ & ->). done.
  - by rewrite H.
Qed.

(** A whole dry run moves nothing: over any listing, a run with [dry_run]
    set never calls [shutil.move], and the file system it leaves is the one
    it found with directories added and nothing else changed; every regular
    file keeps its path and its content. *)
Theorem dry_run_moves_nothing (env : Env) (target : Path) (entries : list Path)
    (fs : FS) :
  let o := organize_loop env (mkOrganizer target true) entries fs in
  (∀ src dst, CallMove src dst ∉ called o)
  ∧ (∀ p, fs_after o !! p = fs !! p ∨ fs !! p = None ∧ fs_after o !! p = Some Dir)
  ∧ (∀ p content, fs_after o !! p = Some (File content) ↔ fs !! p = Some (File content)).
Proof.
  cbv zeta.
  assert ((∀ src dst, CallMove src dst
                      ∉ called (organize_loop env (mkOrganizer target true) entries fs))
          ∧ ∀ p, fs_after (organize_loop env (mkOrganizer target true) entries fs) !! p
                 = fs !! p
                 ∨ fs !! p = None
                   ∧ fs_after (organize_loop env (mkOrganizer target true) entries fs) !! p
                     = Some Dir) as [Hmove Hfs].
  { revert fs. induction entries as [|entry entries IH]; intros fs.
    - split; [|by left]. intros ? ? ?%elem_of_nil. done.
    - rewrite organize_loop_cons. cbn [called fs_after].
      assert ((∀ src dst, CallMove src dst
                          ∉ called (organize_entry env (mkOrganizer target true) entry fs))
              ∧ ∀ p, fs_after (organize_entry env (mkOrganizer target true) entry fs) !! p
                     = fs !! p
                     ∨ fs !! p = None
                       ∧ fs_after (organize_entry env (mkOrganizer target true) entry fs) !! p
                         = Some Dir) as [Hm1 Hfs1].
      { rewrite organize_entry_run. destruct (path_is_file fs entry).
        - destruct (dry_run_step env target entry fs) as [Hm Hf]. cbv zeta.
          by destruct (result (_process_file env (mkOrganizer target true) entry fs)).
        - split; [|by left]. intros ? ? ?%elem_of_nil. done. }
      destruct (IH (fs_after (organize_entry env (mkOrganizer target true) entry fs)))
        as [Hm2 Hfs2].
      split.
      + intros src dst [?%Hm1 | ?%Hm2]%elem_of_app; done.
      + by eapply only_dirs_added_trans. }
  split_and!; [done..|]. intros p content.
  destruct (Hfs p) as [-> | [H1 H2]]; [done|]. rewrite H1, H2. split; done.
Qed.

(** ** A directory with nothing to organize *)



(** ** A category folder that cannot be made *)

Lemma mkdir_on_file (env : Env) (p : Path) (fs : FS) (content : string) :
  fs !! p = Some (File content) →
  mkdir_exist_ok env p fs
  = mkOutcome (Raise (default FileExistsError (os_fault env (CallMkdir p)))) fs []
      [CallMkdir p].
Proof.
  intros Hp. unfold mkdir_exist_ok, bind, trace, get_fs, raise.
  cbn [result fs_after logged called]. by rewrite Hp.
Qed.

(** When the path of the category folder is taken by a regular file (a
    file called [Others], say), every file of that category fails at the
    [mkdir] of line 84: [_process_file] raises, by default
    [FileExistsError], the file system is untouched and nothing is moved,
    in either mode. *)
Theorem category_path_taken (env : Env) (self : FileOrganizer)
    (file_path : Path) (fs : FS) (category : Category) (content : string) :
  PyStr.startswith_dot (PurePath.name file_path) = false →
  result (classify env file_path fs) = Ret category →
  fs !! (target_dir self // category) = Some (File content) →
  let o := _process_file env self file_path fs in
  result o = Raise (default FileExistsError
                      (os_fault env (CallMkdir (target_dir self // category))))
  ∧ fs_after o = fs
  ∧ (∀ src dst, CallMove src dst ∉ called o)
  ∧ (∀ m, mkLog INFO m false ∉ logged o).
Proof.
  intros Hh Hcat Hfolder. cbv zeta. destruct self as [target dry].
  destruct (process_file_cases env target file_path fs Hh)
    as (category' & l1 & c1 & r2 & fs2 & Hc & Hl1 & Hcalls & Hm & _ & H).
  cbv zeta in Hc, Hm. rewrite Hc in Hcat. injection Hcat as ->.
  simpl in Hfolder. rewrite (mkdir_on_file env _ fs content Hfolder) in Hm.
  injection Hm as <- <-. rewrite H. simpl. split_and!; [done..| |].
  - intros src dst [Hin | Hin%list_elem_of_singleton]%elem_of_app; [|done].
    by destruct (Hcalls _ Hin) as [_ [? ?]].
  - intros m Hin. by destruct (Hl1 _ Hin).
Qed.

Lemma category_path_taken_witness :
  let fs : FS := <[ ["t"; "Others"] := File "O" ]> Fixture.fs0 in
  PyStr.startswith_dot (PurePath.name ["t"; "report"]) = false
  ∧ result (classify Fixture.no_sniff ["t"; "report"] fs) = Ret "Others"
  ∧ fs !! (["t"] // "Others") = Some (File "O")
  ∧ result (_process_file Fixture.no_sniff Fixture.apply_mode ["t"; "report"] fs)
    = Raise FileExistsError.
Proof.
  cbv zeta.
  assert ((<[ ["t"; "Others"] := File "O" ]> Fixture.fs0 : FS) !! (["t"] // "Others")
          = Some (File "O")) as Hfolder by (by vm_compute).
  split; [reflexivity|]. split; [reflexivity|]. split; [exact Hfolder|].
  exact (proj1 (category_path_taken Fixture.no_sniff Fixture.apply_mode
                  ["t"; "report"] _ "Others" "O" eq_refl eq_refl Hfolder)).
Defined.

(** ** A successful move *)

Lemma mkdir_success (env : Env) (p : Path) (fs : FS) :
  result (mkdir_exist_ok env p fs) = Ret tt →
  fs !! p = Some Dir ∧ fs_after (mkdir_exist_ok env p fs) = fs
  ∨ fs !! p = None ∧ fs_after (mkdir_exist_ok env p fs) = <[p := Dir]> fs.
Proof.
  unfold mkdir_exist_ok, bind, trace, get_fs, put_fs, ret, raise.
  cbn [result fs_after logged called].
  destruct (fs !! p) as [[|content|]|] eqn:Hp; cbn [result fs_after logged called].
  - by left.
  - done.
  - done.
  - destruct (os_fault env (CallMkdir p)); cbn [result fs_after]; [done|].
    destruct (fs !! PurePath.parent p) as [[|content|]|];
      cbn [result fs_after]; [by right | done | done | done].
Qed.

(** [os.rename] of an entry with nothing below it. *)
Lemma os_rename_file (fs : FS) (src dst : Path) (node : Node) (p : Path) :
  fs !! src = Some node →
  (∀ k, src `prefix_of` k → is_Some (fs !! k) → k = src) →
  os_rename fs src dst !! p
  = if decide (p = dst) then Some node
    else if decide (p = src) then None else fs !! p.
Proof.
  intros Hsrc Hleaf. unfold os_rename.
  assert (filter (λ kv : Path * Node, src `prefix_of` kv.1) fs = {[src := node]})
    as ->.
  { apply map_eq. intros k. destruct (decide (k = src)) as [->|Hne].
    - rewrite lookup_singleton_eq. by apply map_lookup_filter_Some.
    - rewrite lookup_singleton_ne by done. apply map_lookup_filter_None.
      destruct (fs !! k) as [x|] eqn:Hk; [right | by left].
      intros x' _ Hpre. apply Hne, Hleaf; [done | by rewrite Hk]. }
  rewrite map_to_list_singleton. cbn [fmap list_fmap prod_map fst snd id].
  assert (rebase src dst src = dst) as ->.
  { unfold rebase. rewrite bool_decide_true by done.
    by rewrite drop_all, app_nil_r. }
  cbn [list_to_map foldr uncurry]. rewrite insert_empty.
  destruct (decide (p = dst)) as [->|Hdst].
  { rewrite lookup_union_l'; rewrite lookup_singleton_eq; done. }
  rewrite lookup_union_r by (by rewrite lookup_singleton_ne).
  rewrite lookup_delete_ne by done.
  destruct (decide (p = src)) as [->|Hp].
  - apply map_lookup_filter_None. right. intros x _ Hnot. by apply Hnot.
  - destruct (fs !! p) as [x|] eqn:Hx.
    + apply map_lookup_filter_Some. split; [done|]. simpl.
      intros Hpre. apply Hp, Hleaf; [done | by rewrite Hx].
    + apply map_lookup_filter_None. by left.
Qed.



(** A dangling symbolic link at the destination: [Path.exists] follows the
    link and reports the path free, [_resolve_conflict] returns it, and the
    move puts the file where the link was. *)
Example dangling_link_is_replaced :
  let fs : FS := <[ ["t"; "Documents"; "a.txt"] := BrokenLink ]>
                   (<[ ["t"; "Documents"] := Dir ]> Fixture.fs0) in
  let o := _process_file Fixture.no_sniff Fixture.apply_mode ["t"; "a.txt"] fs in
  result o = Ret tt
  ∧ fs_after o !! ["t"; "Documents"; "a.txt"] = Some (File "A")
  ∧ fs_after o !! ["t"; "a.txt"] = None.
Proof. by vm_compute. Qed.

(** ** Logger setup *)

Lemma setup_logger_keeps (log_file : string) (st : Logging) :
  logger_handlers st ≠ [] →
  logger_handlers (setup_logger log_file st) = logger_handlers st.
Proof. unfold setup_logger. simpl. by destruct (logger_handlers st). Qed.

Lemma setup_logger_again (others : list string) (st : Logging) :
  logger_handlers st ≠ [] →
  let st' := foldl (λ st log_file, setup_logger log_file st) st others in
  logger_handlers st' = logger_handlers st
  ∧ opened st' = opened st ++ others
  ∧ (others ≠ [] → logger_level st' = DEBUG).
Proof.
  cbv zeta. revert st. induction others as [|f others IH]; intros st Hne; simpl.
  - by rewrite app_nil_r.
  - destruct (IH (setup_logger f st)) as (Hh & Ho & Hl).
    { by rewrite setup_logger_keeps. }
    rewrite Hh, Ho, setup_logger_keeps by done. split_and!; [done | |].
    + simpl. by rewrite <- app_assoc.
    + intros _. destruct others as [|g others]; [done|]. by apply Hl.
Qed.

(** The handler is registered once and the first log file wins: after any
    number of calls of [setup_logger] in one process, the logger has the one
    handler of the first call (rotating at 5 MiB with two backups), records
    of every level the organizer uses pass the logger's level and are written
    to the first file only, although every later call has opened its own
    file. *)
Theorem setup_logger_first_wins (first : string) (others : list string)
    (l : Level) :
  let st := foldl (λ st log_file, setup_logger log_file st) fresh_logging
              (first :: others) in
  logger_handlers st
  = [mkHandler first 5242880 2 "[%(asctime)s] [%(levelname)s]: %(message)s"]
  ∧ written_to st l = [first]
  ∧ opened st = first :: others.
Proof.
  cbv zeta. simpl.
  destruct (setup_logger_again others (setup_logger first fresh_logging))
    as (Hh & Ho & Hl); [done|].
  assert (logger_level
            (foldl (λ st log_file, setup_logger log_file st)
               (setup_logger first fresh_logging) others) = DEBUG) as Hlevel.
  { destruct others as [|g others]; [done|]. by apply Hl. }
  split_and!; [by rewrite Hh | | by rewrite Ho].
  unfold written_to. rewrite Hlevel, Hh. by destruct l.
Qed.
